(** * Triton pintool: the instrumentation-orchestration pipeline

    A shallow embedding of [src/tracer/pin/main.cpp]: the analysis trigger,
    the range selector ([checkUnlockAnalysis]), the image filter, the
    per-instruction callbacks and the event callbacks.

    The pintool's process-wide variables are gathered in one record
    ([Globals]) that every callback threads explicitly.  Calls into the
    symbolic engine, into the DBI engine and into the user's script are
    recorded, in program order, in a trace of [Event]s; a callback is a
    computation in a small state-and-trace monad whose outcome also tells
    whether control came back to the caller. *)

From Stdlib Require Import ZArith Lia List Bool.
From stdpp Require Import gmap strings list.

Local Open Scope Z_scope.

(** ** Handles and scalar types *)

(** [THREADID], [CONTEXT*], [triton::arch::Instruction*] and [PyObject*]
    are opaque handles for the pintool: it stores and compares them only. *)
Definition THREADID := Z.
Definition CONTEXT := Z.
Definition InstPtr := Z.
Definition PyObject := Z.

(** [triton::__uint] on the x86-64 build: addresses wrap at 2^64. *)
Definition uint_bits : Z := 64.
Definition wrap_uint (x : Z) : Z := x mod 2 ^ uint_bits.

(** ** The snapshot engine and the trigger (declared in snapshot.hpp, trigger.hpp) *)

(** Modelled from the spec: the [Snapshot] class is declared in snapshot.hpp,
    which is not among the sources.  It holds a lock flag, a must-restore
    flag and a map from an address to the byte first saved for it. *)
Record Snapshot := mkSnapshot {
  snap_locked : bool;
  snap_mustBeRestored : bool;
  snap_memory : gmap Z Z
}.

(** Modelled from the spec: [Snapshot::isLocked] and
    [Snapshot::mustBeRestored] read the two flags. *)
Definition isLocked (s : Snapshot) : bool := snap_locked s.
Definition mustBeRestored (s : Snapshot) : bool := snap_mustBeRestored s.

(** Modelled from the spec: [Snapshot::addModification] records the byte only
    if the snapshot is not locked and the address is not recorded yet. *)
Definition addModification (addr byte : Z) (s : Snapshot) : Snapshot :=
  if snap_locked s then s
  else match snap_memory s !! addr with
       | Some _ => s
       | None => mkSnapshot (snap_locked s) (snap_mustBeRestored s)
                            (<[addr := byte]> (snap_memory s))
       end.

(** ** Process-wide state *)

(** The variables of [tracer::pintool], [tracer::pintool::options] and
    [tracer::pintool::context] that main.cpp reads or writes.  The trigger
    (class [Trigger], a single boolean with [getState] and [update]) is the
    field [analysisTrigger]. *)
Record Globals := mkGlobals {
  analysisTrigger : bool;
  snapshot : Snapshot;
  targetThreadId : Z;
  startAnalysisFromEntry : bool;
  startAnalysisFromSymbol : option string;
  startAnalysisFromAddr : gset Z;
  startAnalysisFromOffset : gset Z;
  imageBlacklist : list string;
  imageWhitelist : list string;
  options_callbackRoutineEntry : list (string * PyObject);
  options_callbackRoutineExit : list (string * PyObject);
  lastContext : CONTEXT;
  mustBeExecuted : bool
}.

Definition set_analysisTrigger (b : bool) (g : Globals) : Globals :=
  mkGlobals b (snapshot g) (targetThreadId g) (startAnalysisFromEntry g)
    (startAnalysisFromSymbol g) (startAnalysisFromAddr g)
    (startAnalysisFromOffset g) (imageBlacklist g) (imageWhitelist g)
    (options_callbackRoutineEntry g) (options_callbackRoutineExit g) (lastContext g)
    (mustBeExecuted g).

Definition set_snapshot (s : Snapshot) (g : Globals) : Globals :=
  mkGlobals (analysisTrigger g) s (targetThreadId g) (startAnalysisFromEntry g)
    (startAnalysisFromSymbol g) (startAnalysisFromAddr g)
    (startAnalysisFromOffset g) (imageBlacklist g) (imageWhitelist g)
    (options_callbackRoutineEntry g) (options_callbackRoutineExit g) (lastContext g)
    (mustBeExecuted g).

Definition set_targetThreadId (t : Z) (g : Globals) : Globals :=
  mkGlobals (analysisTrigger g) (snapshot g) t (startAnalysisFromEntry g)
    (startAnalysisFromSymbol g) (startAnalysisFromAddr g)
    (startAnalysisFromOffset g) (imageBlacklist g) (imageWhitelist g)
    (options_callbackRoutineEntry g) (options_callbackRoutineExit g) (lastContext g)
    (mustBeExecuted g).

Definition set_startAnalysisFromEntry (b : bool) (g : Globals) : Globals :=
  mkGlobals (analysisTrigger g) (snapshot g) (targetThreadId g) b
    (startAnalysisFromSymbol g) (startAnalysisFromAddr g)
    (startAnalysisFromOffset g) (imageBlacklist g) (imageWhitelist g)
    (options_callbackRoutineEntry g) (options_callbackRoutineExit g) (lastContext g)
    (mustBeExecuted g).

Definition set_startAnalysisFromAddr (s : gset Z) (g : Globals) : Globals :=
  mkGlobals (analysisTrigger g) (snapshot g) (targetThreadId g)
    (startAnalysisFromEntry g) (startAnalysisFromSymbol g) s
    (startAnalysisFromOffset g) (imageBlacklist g) (imageWhitelist g)
    (options_callbackRoutineEntry g) (options_callbackRoutineExit g) (lastContext g)
    (mustBeExecuted g).

Definition set_lastContext (c : CONTEXT) (g : Globals) : Globals :=
  mkGlobals (analysisTrigger g) (snapshot g) (targetThreadId g)
    (startAnalysisFromEntry g) (startAnalysisFromSymbol g)
    (startAnalysisFromAddr g) (startAnalysisFromOffset g) (imageBlacklist g)
    (imageWhitelist g) (options_callbackRoutineEntry g) (options_callbackRoutineExit g) c
    (mustBeExecuted g).

Definition set_mustBeExecuted (b : bool) (g : Globals) : Globals :=
  mkGlobals (analysisTrigger g) (snapshot g) (targetThreadId g)
    (startAnalysisFromEntry g) (startAnalysisFromSymbol g)
    (startAnalysisFromAddr g) (startAnalysisFromOffset g) (imageBlacklist g)
    (imageWhitelist g) (options_callbackRoutineEntry g) (options_callbackRoutineExit g)
    (lastContext g) b.

(** ** What the DBI engine shows of an image and of an instruction *)

Record IMG := mkIMG {
  IMG_Valid : bool;
  IMG_Name : string;
  IMG_LowAddress : Z;
  IMG_HighAddress : Z;
  IMG_Entry : Z;
  IMG_Routines : list string   (* the names RTN_FindByName resolves *)
}.

Record INS := mkINS {
  INS_Address : Z;
  INS_Size : Z;
  INS_IsMemoryRead : bool;
  INS_HasMemoryRead2 : bool;
  INS_IsMemoryWrite : bool;
  INS_IsSyscall : bool;
  INS_HasFallThrough : bool;
  INS_OperandCount : Z;
  INS_MemoryOperandIsWritten0 : bool;
  INS_MemoryWriteSize : Z
}.

Definition BBL := list INS.
Definition TRACE := list BBL.

Inductive IPOINT := IPOINT_BEFORE | IPOINT_AFTER | IPOINT_TAKEN_BRANCH.

(** The analysis routines main.cpp asks the DBI engine to insert. *)
Inductive AFUN :=
| A_toggleWrapper (flag : bool)
| A_callbackRoutineEntry (callback : PyObject)
| A_callbackRoutineExit (callback : PyObject)
| A_saveMemoryRead
| A_saveMemoryRead2
| A_saveMemoryWrite
| A_callbackBefore
| A_callbackAfter
| A_callbackSnapshot (writeSize : Z).

(** ** Observable actions *)

Inductive Event :=
(* the callback dispatcher (callbacks.hpp) *)
| EvPreProcessing (inst : InstPtr) (threadId : THREADID)
| EvPostProcessing (inst : InstPtr) (threadId : THREADID)
| EvBeforeIRProc (inst : InstPtr)
| EvBefore (inst : InstPtr)
| EvAfter (inst : InstPtr)
| EvRoutine (threadId : THREADID) (callback : PyObject)
| EvFini
| EvSyscallEntry (threadId : THREADID) (std : Z)
| EvSyscallExit (threadId : THREADID) (std : Z)
| EvSignals (threadId : THREADID) (sig : Z)
| EvImageLoad (path : string) (base size : Z)
(* the DBI engine *)
| EvLockClient
| EvUnlockClient
| EvRtnInsertCall (img : IMG) (rtn : string) (ipoint : IPOINT) (f : AFUN)
| EvNewInstruction (ins : INS)
| EvInsInsertCall (ins : INS) (ipoint : IPOINT) (f : AFUN)
(* the symbolic engine and the Instruction object *)
| EvPartialReset (inst : InstPtr)
| EvSetOpcodes (inst : InstPtr) (addr size : Z)
| EvSetAddress (inst : InstPtr) (addr : Z)
| EvSetThreadId (inst : InstPtr) (threadId : THREADID)
| EvSetupContextRegister (inst : InstPtr) (ctx : CONTEXT)
| EvDisassembly (inst : InstPtr)
| EvSetTrust (inst : InstPtr) (flag : bool)
| EvReset (inst : InstPtr)
| EvBuildSemantics (inst : InstPtr)
| EvUpdateContext (inst : InstPtr) (addr size value : Z)
(* context.hpp and snapshot.hpp *)
| EvExecuteContext
| EvRestoreSnapshot (ctx : CONTEXT)
| EvAddModification (addr byte : Z)
(* the pintool's own start-address set: [startAnalysisFromAddr.insert] *)
| EvInsertStartAddr (addr : Z).

(** ** The callback monad *)

(** How a computation ends: it returns to its caller, the process exits, or
    control is handed over (to the DBI engine or to the script) and never
    comes back to the callback. *)
Inductive Outcome (A : Type) :=
| Ret (a : A)
| Exited (code : Z)
| Diverted.
Arguments Ret {A} a.
Arguments Exited {A} code.
Arguments Diverted {A}.

Definition M (A : Type) : Type := Globals -> list Event * Outcome (A * Globals).

Definition ret {A} (a : A) : M A := fun g => ([], Ret (a, g)).

Definition bind {A B} (m : M A) (k : A -> M B) : M B :=
  fun g =>
    match m g with
    | (t1, Ret (a, g1)) =>
        match k a g1 with
        | (t2, o) => (t1 ++ t2, o)
        end
    | (t1, Exited c) => (t1, Exited c)
    | (t1, Diverted) => (t1, Diverted)
    end.

Declare Scope cb_scope.
Delimit Scope cb_scope with cb.
Notation "x <- m ;; k" := (bind m (fun x => k))
  (at level 100, m at next level, right associativity) : cb_scope.
Notation "m ;;; k" := (bind m (fun _ => k))
  (at level 100, right associativity) : cb_scope.
Local Open Scope cb_scope.

Definition get : M Globals := fun g => ([], Ret (g, g)).
Definition modify (f : Globals -> Globals) : M unit := fun g => ([], Ret (tt, f g)).
Definition emit (e : Event) : M unit := fun g => ([e], Ret (tt, g)).
Definition exit (code : Z) : M unit := fun g => ([], Exited code).

(** A call to code outside main.cpp that may change the globals and may
    keep control: the event is recorded when the call is made. *)
Definition call (e : Event) (f : Globals -> option Globals) : M unit :=
  fun g =>
    match f g with
    | Some g' => ([e], Ret (tt, g'))
    | None => ([e], Diverted)
    end.

Definition when (b : bool) (m : M unit) : M unit := if b then m else ret tt.

Fixpoint forM {A} (l : list A) (body : A -> M unit) : M unit :=
  match l with
  | [] => ret tt
  | x :: l' => body x ;;; forM l' body
  end.

Definition trace_of {A} (r : list Event * Outcome A) : list Event := fst r.
Definition outcome_of {A} (r : list Event * Outcome A) : Outcome A := snd r.

(** ** The environment of main.cpp *)

(** What main.cpp asks of the DBI engine and of utils.hpp and context.hpp
    without changing the globals. *)
Record Pin := mkPin {
  PIN_ThreadId : THREADID;                (* the calling thread *)
  RTN_FindNameByAddress : Z -> string;
  getImageName : Z -> string;             (* utils.hpp *)
  getInsOffset : Z -> Z;                  (* utils.hpp: address - image base *)
  memoryByte : Z -> Z;                    (* the byte of process memory at an address *)
  getCurrentMemoryValue : Z -> Z -> Z     (* context.hpp *)
}.

(** The named hooks of [tracer::pintool::callbacks] (callbacks.hpp).  A hook
    runs the user's script, which can change any global through the
    bindings; [None] stands for a hook that does not give control back. *)
Record Callbacks := mkCallbacks {
  preProcessing : InstPtr -> THREADID -> Globals -> option Globals;
  postProcessing : InstPtr -> THREADID -> Globals -> option Globals;
  beforeIRProc : InstPtr -> Globals -> option Globals;
  before : InstPtr -> Globals -> option Globals;
  after : InstPtr -> Globals -> option Globals;
  routine : THREADID -> PyObject -> Globals -> option Globals;
  fini : Globals -> option Globals;
  syscallEntry : THREADID -> Z -> Globals -> option Globals;
  syscallExit : THREADID -> Z -> Globals -> option Globals;
  signals : THREADID -> Z -> Globals -> option Globals;
  imageLoad : string -> Z -> Z -> Globals -> option Globals
}.

(** The two state-changing operations of context.hpp and snapshot.hpp that
    main.cpp calls; both go through the DBI engine, so they may keep
    control ([None]). *)
Record Runtime := mkRuntime {
  executeContext : Globals -> option Globals;
  restoreSnapshot : CONTEXT -> Globals -> option Globals
}.

(** Modelled from the spec: [context::executeContext] (context.hpp is not
    among the sources) applies the queued override context to the live
    thread through the DBI engine: the thread resumes at the queued context,
    and the dynamic execution that called it is cut short there (spec 4.5,
    step 9).  Control does not come back to the callback; the instruction is
    executed again and its callback entered anew with the flag still set,
    which is the case lines 212-215 of main.cpp handle. *)
Definition executeContext_spec (g : Globals) : option Globals := None.

(** Modelled from the spec: [Snapshot::restoreSnapshot] (snapshot.hpp is not
    among the sources) writes the recorded bytes back, then clears the map
    and the must-restore flag and leaves the lock as it is. *)
Definition restoreSnapshot_spec (ctx : CONTEXT) (g : Globals) : option Globals :=
  Some (set_snapshot (mkSnapshot (snap_locked (snapshot g)) false ∅) g).

Definition runtime_spec : Runtime := mkRuntime executeContext_spec restoreSnapshot_spec.

(** ** strstr *)

Fixpoint starts_with (needle hay : string) : bool :=
  match needle with
  | EmptyString => true
  | String c needle' =>
      match hay with
      | EmptyString => false
      | String d hay' => Ascii.eqb c d && starts_with needle' hay'
      end
  end.

(** [strstr hay needle]: the suffix of [hay] that starts at the first
    occurrence of [needle], [None] for the null pointer. *)
Fixpoint strstr (hay needle : string) : option string :=
  if starts_with needle hay then Some hay
  else match hay with
       | EmptyString => None
       | String _ hay' => strstr hay' needle
       end.

(** [needle] occurs in [hay]. *)
Definition occurs_in (needle hay : string) : Prop :=
  exists pre post : string, hay = String.append pre (String.append needle post).

(** ** main.cpp *)

Section Pintool.

Variable pin : Pin.
Variable cb : Callbacks.
Variable rt : Runtime.

Definition PIN_LockClient : M unit := emit EvLockClient.
Definition PIN_UnlockClient : M unit := emit EvUnlockClient.

(* Switch lock *)
Definition toggleWrapper (flag : bool) : M unit :=
  PIN_LockClient ;;;
  modify (set_analysisTrigger flag) ;;;
  PIN_UnlockClient.

(** The test that opens [callbackBefore], [callbackAfter] and the routine and
    syscall callbacks:
    [!analysisTrigger.getState() || threadId != options::targetThreadId]. *)
Definition analysisLocked (threadId : THREADID) (g : Globals) : bool :=
  negb (analysisTrigger g) || negb (threadId =? targetThreadId g).

(* Callback before instruction processing *)
Definition callbackBefore (tritonInst : InstPtr) (addr size : Z) (ctx : CONTEXT)
    (threadId : THREADID) : M unit :=
  (* Some configurations must be applied before processing *)
  call (EvPreProcessing tritonInst threadId) (preProcessing cb tritonInst threadId) ;;;
  g <- get ;;
  if analysisLocked threadId g then ret tt (* Analysis locked *) else
  PIN_LockClient ;;;
  (* Update CTX *)
  modify (set_lastContext ctx) ;;;
  (* Setup Triton information *)
  emit (EvPartialReset tritonInst) ;;;
  emit (EvSetOpcodes tritonInst addr size) ;;;
  emit (EvSetAddress tritonInst addr) ;;;
  emit (EvSetThreadId tritonInst threadId) ;;;
  (* Setup the concrete context *)
  emit (EvSetupContextRegister tritonInst ctx) ;;;
  (* Disassemble the instruction *)
  emit (EvDisassembly tritonInst) ;;;
  (* Trust operands *)
  emit (EvSetTrust tritonInst true) ;;;
  (* Execute the Python callback before the IR processing *)
  g <- get ;;
  (if eqb (mustBeExecuted g) false
   then call (EvBeforeIRProc tritonInst) (beforeIRProc cb tritonInst)
   else modify (set_mustBeExecuted false)) ;;;
  (* Check if we must execute a new context *)
  g <- get ;;
  when (eqb (mustBeExecuted g) true)
    (emit (EvReset tritonInst) ;;;
     call EvExecuteContext (executeContext rt)) ;;;
  (* Process the IR and taint *)
  emit (EvBuildSemantics tritonInst) ;;;
  (* Execute the Python callback *)
  g <- get ;;
  when (eqb (mustBeExecuted g) false)
    (call (EvBefore tritonInst) (before cb tritonInst)) ;;;
  (* Check if we must restore the snapshot *)
  g <- get ;;
  when (eqb (mustBeRestored (snapshot g)) true)
    (emit (EvReset tritonInst) ;;;
     call (EvRestoreSnapshot ctx) (restoreSnapshot rt ctx)) ;;;
  (* Some configurations must be applied after processing *)
  call (EvPostProcessing tritonInst threadId) (postProcessing cb tritonInst threadId) ;;;
  (* Untrust operands *)
  emit (EvSetTrust tritonInst false) ;;;
  PIN_UnlockClient.

(* Callback after instruction processing *)
Definition callbackAfter (tritonInst : InstPtr) (ctx : CONTEXT) (threadId : THREADID) : M unit :=
  g <- get ;;
  if analysisLocked threadId g then ret tt else
  PIN_LockClient ;;;
  modify (set_lastContext ctx) ;;;
  call (EvAfter tritonInst) (after cb tritonInst) ;;;
  call (EvPostProcessing tritonInst threadId) (postProcessing cb tritonInst threadId) ;;;
  (* Clear Instruction information because of the Pin's cache *)
  emit (EvReset tritonInst) ;;;
  g <- get ;;
  when (eqb (mustBeExecuted g) true) (call EvExecuteContext (executeContext rt)) ;;;
  g <- get ;;
  when (eqb (mustBeRestored (snapshot g)) true)
    (call (EvRestoreSnapshot ctx) (restoreSnapshot rt ctx)) ;;;
  PIN_UnlockClient.

(* Save the memory access into the Triton instruction *)
Definition saveMemoryAccess (tritonInst : InstPtr) (addr size : Z) : M unit :=
  emit (EvUpdateContext tritonInst addr size (getCurrentMemoryValue pin addr size)).

(* Callback to save bytes for the snapshot engine *)
Definition callbackSnapshot (mem writeSize : Z) : M unit :=
  g <- get ;;
  if negb (analysisTrigger g) then ret tt (* Analysis locked *) else
  (* If the snapshot is not enable we don't save the memory *)
  if isLocked (snapshot g) then ret tt else
  PIN_LockClient ;;;
  forM (seqZ 0 writeSize) (fun i =>
    let a := wrap_uint (mem + i) in
    emit (EvAddModification a (memoryByte pin a)) ;;;
    modify (fun g => set_snapshot (addModification a (memoryByte pin a) (snapshot g)) g)) ;;;
  PIN_UnlockClient.

(* Callback at a routine entry *)
Definition callbackRoutineEntry (ctx : CONTEXT) (threadId : THREADID) (callback : PyObject) : M unit :=
  g <- get ;;
  if analysisLocked threadId g then ret tt else
  PIN_LockClient ;;;
  modify (set_lastContext ctx) ;;;
  call (EvRoutine threadId callback) (routine cb threadId callback) ;;;
  PIN_UnlockClient.

(* Callback at a routine exit *)
Definition callbackRoutineExit (ctx : CONTEXT) (threadId : THREADID) (callback : PyObject) : M unit :=
  g <- get ;;
  if analysisLocked threadId g then ret tt else
  PIN_LockClient ;;;
  modify (set_lastContext ctx) ;;;
  call (EvRoutine threadId callback) (routine cb threadId callback) ;;;
  PIN_UnlockClient.

(* Callback at the end of the execution *)
Definition callbackFini : M unit := call EvFini (fini cb).

(* Callback at a syscall entry *)
Definition callbackSyscallEntry (threadId : THREADID) (ctx : CONTEXT) (std : Z) : M unit :=
  g <- get ;;
  if analysisLocked threadId g then ret tt else
  PIN_LockClient ;;;
  modify (set_lastContext ctx) ;;;
  call (EvSyscallEntry threadId std) (syscallEntry cb threadId std) ;;;
  PIN_UnlockClient.

(* Callback at the syscall exit *)
Definition callbackSyscallExit (threadId : THREADID) (ctx : CONTEXT) (std : Z) : M unit :=
  g <- get ;;
  if analysisLocked threadId g then ret tt else
  PIN_LockClient ;;;
  modify (set_lastContext ctx) ;;;
  call (EvSyscallExit threadId std) (syscallExit cb threadId std) ;;;
  PIN_UnlockClient.

(* Callback when an image is loaded. *)
Definition callbackImageLoad (img : IMG) : M unit :=
  PIN_LockClient ;;;
  (* Collect image's informations *)
  let imagePath := IMG_Name img in
  let imageBase := IMG_LowAddress img in
  let imageSize := wrap_uint (wrap_uint (IMG_HighAddress img + 1) - imageBase) in
  (* Execute the Python callback *)
  call (EvImageLoad imagePath imageBase imageSize) (imageLoad cb imagePath imageBase imageSize) ;;;
  PIN_UnlockClient.

(* Callback when a signals occurs *)
Definition callbackSignals (threadId : THREADID) (sig : Z) (ctx : CONTEXT) : M bool :=
  PIN_LockClient ;;;
  (* Update CTX *)
  modify (set_lastContext ctx) ;;;
  (* Execute the Python callback *)
  call (EvSignals threadId sig) (signals cb threadId sig) ;;;
  PIN_UnlockClient ;;;
  (* We must exit. *)
  exit 0 ;;;
  ret true.

(** [RTN_Valid (RTN_FindByName img name)]. *)
Definition RTN_FindByName (img : IMG) (name : string) : bool :=
  bool_decide (name ∈ IMG_Routines img).

(* Image instrumentation *)
Definition IMG_Instrumentation (img : IMG) : M unit :=
  (* Lock / Unlock the Analysis from a Entry point *)
  g <- get ;;
  when (startAnalysisFromEntry g)
    (modify (set_startAnalysisFromEntry false) ;;;
     emit (EvInsertStartAddr (IMG_Entry img)) ;;;
     modify (fun g => set_startAnalysisFromAddr ({[IMG_Entry img]} ∪ startAnalysisFromAddr g) g)) ;;;
  (* Lock / Unlock the Analysis from a symbol *)
  g <- get ;;
  match startAnalysisFromSymbol g with
  | Some sym =>
      when (RTN_FindByName img sym)
        (emit (EvRtnInsertCall img sym IPOINT_BEFORE (A_toggleWrapper true)) ;;;
         emit (EvRtnInsertCall img sym IPOINT_AFTER (A_toggleWrapper false)))
  | None => ret tt
  end ;;;
  (* Callback on routine entry *)
  g <- get ;;
  forM (options_callbackRoutineEntry g) (fun it =>
    when (RTN_FindByName img (fst it))
      (emit (EvRtnInsertCall img (fst it) IPOINT_BEFORE (A_callbackRoutineEntry (snd it))))) ;;;
  (* Callback on routine exit *)
  g <- get ;;
  forM (options_callbackRoutineExit g) (fun it =>
    when (RTN_FindByName img (fst it))
      (emit (EvRtnInsertCall img (fst it) IPOINT_AFTER (A_callbackRoutineExit (snd it))))) ;;;
  (* Callback when a new image is loaded. *)
  when (IMG_Valid img) (callbackImageLoad img).

(* Check if the analysis must be unlocked *)
Definition checkUnlockAnalysis (address : Z) : M bool :=
  g <- get ;;
  if negb (targetThreadId g =? -1) then ret false else
  match startAnalysisFromSymbol g with
  | Some sym =>
      (* Unlock the analysis at the entry point from symbol *)
      if String.eqb (RTN_FindNameByAddress pin address) sym then
        modify (set_targetThreadId (PIN_ThreadId pin)) ;;;
        toggleWrapper true ;;;
        ret true
      else ret false
  | None =>
      (* Unlock the analysis at the entry point from address *)
      if bool_decide (address ∈ startAnalysisFromAddr g) then
        modify (set_targetThreadId (PIN_ThreadId pin)) ;;;
        toggleWrapper true ;;;
        ret true
      (* Unlock the analysis at the entry point from offset *)
      else if bool_decide (getInsOffset pin address ∈ startAnalysisFromOffset g) then
        modify (set_targetThreadId (PIN_ThreadId pin)) ;;;
        toggleWrapper true ;;;
        ret true
      else ret false
  end.

(** The loop shared by the two list checks: true at the first element that
    [strstr] finds in the image name. *)
Fixpoint strstr_any (name : string) (l : list string) : bool :=
  match l with
  | [] => false
  | it :: l' =>
      match strstr name it with
      | Some _ => true
      | None => strstr_any name l'
      end
  end.

(* Check if the instruction is blacklisted *)
Definition instructionBlacklisted (address : Z) (g : Globals) : bool :=
  strstr_any (getImageName pin address) (imageBlacklist g).

(* Check if the instruction is whitelisted *)
Definition instructionWhitelisted (address : Z) (g : Globals) : bool :=
  (* If there is no whitelist -> jit everything *)
  match imageWhitelist g with
  | [] => true
  | _ => strstr_any (getImageName pin address) (imageWhitelist g)
  end.

(** The image filter of [TRACE_Instrumentation]:
    [instructionBlacklisted(a) == true || instructionWhitelisted(a) == false]. *)
Definition imageFiltered (address : Z) (g : Globals) : bool :=
  eqb (instructionBlacklisted address g) true
  || eqb (instructionWhitelisted address g) false.

(** The body of the inner loop of [TRACE_Instrumentation]. *)
Definition TRACE_Instrumentation_ins (ins : INS) : M unit :=
  (* Check if the analysis me be unlocked *)
  _ <- checkUnlockAnalysis (INS_Address ins) ;;
  g <- get ;;
  if negb (analysisTrigger g) then ret tt (* Analysis locked *) else
  if imageFiltered (INS_Address ins) g then ret tt (* Insruction blacklisted *) else
  (* Prepare the Triton's instruction *)
  emit (EvNewInstruction ins) ;;;
  (* Save memory read1 informations *)
  when (INS_IsMemoryRead ins) (emit (EvInsInsertCall ins IPOINT_BEFORE A_saveMemoryRead)) ;;;
  (* Save memory read2 informations *)
  when (INS_HasMemoryRead2 ins) (emit (EvInsInsertCall ins IPOINT_BEFORE A_saveMemoryRead2)) ;;;
  (* Save memory write informations *)
  when (INS_IsMemoryWrite ins) (emit (EvInsInsertCall ins IPOINT_BEFORE A_saveMemoryWrite)) ;;;
  (* Callback before *)
  emit (EvInsInsertCall ins IPOINT_BEFORE A_callbackBefore) ;;;
  (* Callback after *)
  when (eqb (INS_IsSyscall ins) false)
    (emit (EvInsInsertCall ins
             (if eqb (INS_HasFallThrough ins) false then IPOINT_TAKEN_BRANCH else IPOINT_AFTER)
             A_callbackAfter)) ;;;
  (* I/O memory monitoring for snapshot *)
  when ((1 <? INS_OperandCount ins) && INS_MemoryOperandIsWritten0 ins)
    (emit (EvInsInsertCall ins IPOINT_BEFORE (A_callbackSnapshot (INS_MemoryWriteSize ins)))).

(* Trace instrumentation *)
Definition TRACE_Instrumentation (trace : TRACE) : M unit :=
  forM trace (fun bbl => forM bbl TRACE_Instrumentation_ins).

End Pintool.

(** What [callbackBefore] does, once the analysis is found unlocked, before it looks at the
    pending context override. *)
Definition before_prologue (tritonInst : InstPtr) (addr size : Z) (ctx : CONTEXT)
    (threadId : THREADID) : list Event :=
  [EvPreProcessing tritonInst threadId; EvLockClient; EvPartialReset tritonInst;
   EvSetOpcodes tritonInst addr size; EvSetAddress tritonInst addr;
   EvSetThreadId tritonInst threadId; EvSetupContextRegister tritonInst ctx;
   EvDisassembly tritonInst; EvSetTrust tritonInst true].

(** The calls to [addModification] that [callbackSnapshot] makes for a write
    of [writeSize] bytes at [mem], and what they do to the snapshot. *)
Definition snapshot_addresses (mem writeSize : Z) : list Z :=
  map (fun i => wrap_uint (mem + i)) (seqZ 0 writeSize).

Definition snapshot_events (pin : Pin) (addrs : list Z) : list Event :=
  map (fun a => EvAddModification a (memoryByte pin a)) addrs.

Definition snapshot_saved (pin : Pin) (addrs : list Z) (s : Snapshot) : Snapshot :=
  fold_left (fun s a => addModification a (memoryByte pin a) s) addrs s.

(** The insertions into the start-address set that a trace shows. *)
Definition is_start_insert (e : Event) : bool :=
  match e with
  | EvInsertStartAddr _ => true
  | _ => false
  end.

(** The image-load hook never asks again for a start from the entry point
    (the script does not call the start-from-entry binding inside it). *)
Definition hook_keeps_entry_cleared (cb : Callbacks) : Prop :=
  forall path base size g0 g1,
    imageLoad cb path base size g0 = Some g1 ->
    startAnalysisFromEntry g0 = false ->
    startAnalysisFromEntry g1 = false.

(** The globals that a call to [checkUnlockAnalysis] leaves. *)
Definition unlockedGlobals (pin : Pin) (address : Z) (g : Globals) : Globals :=
  match outcome_of (checkUnlockAnalysis pin address g) with
  | Ret (_, g') => g'
  | _ => g
  end.

(** ** Sample configurations *)

(** A dispatcher with no script function registered: every hook is a no-op. *)
Definition no_hook : Globals -> option Globals := Some.
Definition idle_callbacks : Callbacks :=
  mkCallbacks (fun _ _ => no_hook) (fun _ _ => no_hook) (fun _ => no_hook)
    (fun _ => no_hook) (fun _ => no_hook) (fun _ _ => no_hook) no_hook
    (fun _ _ => no_hook) (fun _ _ => no_hook) (fun _ _ => no_hook)
    (fun _ _ _ => no_hook).

(** A script whose before-IR hook queues a context override. *)
Definition override_callbacks : Callbacks :=
  mkCallbacks (fun _ _ => no_hook) (fun _ _ => no_hook)
    (fun _ g => Some (set_mustBeExecuted true g))
    (fun _ => no_hook) (fun _ => no_hook) (fun _ _ => no_hook) no_hook
    (fun _ _ => no_hook) (fun _ _ => no_hook) (fun _ _ => no_hook)
    (fun _ _ _ => no_hook).

(** Thread 0 is running; every address belongs to /lib/libc.so.6 loaded at
    0x1000; memory is zeroed. *)
Definition sample_pin : Pin :=
  mkPin 0 (fun _ => "main"%string) (fun _ => "/lib/libc.so.6"%string)
    (fun a => a - 4096) (fun _ => 0) (fun _ _ => 0).

Definition empty_snapshot : Snapshot := mkSnapshot false false ∅.

(** The globals as the pintool starts: analysis locked, no target thread. *)
Definition initial_globals : Globals :=
  mkGlobals false empty_snapshot (-1) false None ∅ ∅ [] [] [] [] 0 false.

(** Analysis running on thread 0. *)
Definition running_globals : Globals :=
  set_targetThreadId 0 (set_analysisTrigger true initial_globals).

(** Start condition: address 0x4000; nothing unlocked yet. *)
Definition start_at_0x4000 : Globals :=
  set_startAnalysisFromAddr {[16384]} initial_globals.

(** The same start condition after thread 3 unlocked the analysis. *)
Definition unlocked_by_thread_3 : Globals :=
  set_targetThreadId 3 (set_analysisTrigger true start_at_0x4000).

(** Analysis running on thread 0 with a context override already queued. *)
Definition override_pending_globals : Globals :=
  set_mustBeExecuted true running_globals.

(** Analysis running on thread 0, the snapshot already holding the byte 0x41
    for address 0x1001. *)
Definition running_with_saved_byte : Globals :=
  set_snapshot (mkSnapshot false false {[4097 := 65]}) running_globals.

(** Started with the from-entry-point request. *)
Definition start_from_entry : Globals :=
  set_startAnalysisFromEntry true initial_globals.

Definition sample_img (name : string) (entry : Z) : IMG :=
  mkIMG true name 4096 8191 entry [].

(** The start condition lies in an image that is on both lists. *)
Definition start_in_blacklisted_image : Globals :=
  mkGlobals false empty_snapshot (-1) false None {[16384]} ∅
    ["libc"%string] ["libc"%string; "ld-linux"%string] [] [] 0 false.

Definition plain_ins (address : Z) : INS :=
  mkINS address 4 false false false false true 2 false 0.

(** ** Measures on traces and configurations *)

(** Lock acquisitions minus lock releases in a trace. *)
Fixpoint lock_balance (tr : list Event) : Z :=
  match tr with
  | [] => 0
  | EvLockClient :: tr' => 1 + lock_balance tr'
  | EvUnlockClient :: tr' => lock_balance tr' - 1
  | _ :: tr' => lock_balance tr'
  end.

Definition is_lock (e : Event) : bool :=
  match e with
  | EvLockClient => true
  | _ => false
  end.

(** The start condition that [checkUnlockAnalysis] tests once it has found
    the target thread unset (lines 510-530). *)
Definition startMatches (pin : Pin) (address : Z) (g : Globals) : bool :=
  match startAnalysisFromSymbol g with
  | Some sym => String.eqb (RTN_FindNameByAddress pin address) sym
  | None =>
      bool_decide (address ∈ startAnalysisFromAddr g)
      || bool_decide (getInsOffset pin address ∈ startAnalysisFromOffset g)
  end.

(** The [saveMemoryAccess] insertions of an instruction, in source order. *)
Definition memory_saves (ins : INS) : list Event :=
  (if INS_IsMemoryRead ins then [EvInsInsertCall ins IPOINT_BEFORE A_saveMemoryRead] else [])
  ++ (if INS_HasMemoryRead2 ins then [EvInsInsertCall ins IPOINT_BEFORE A_saveMemoryRead2] else [])
  ++ (if INS_IsMemoryWrite ins then [EvInsInsertCall ins IPOINT_BEFORE A_saveMemoryWrite] else []).

(** The routine names that the globals ask [IMG_Instrumentation] to look up. *)
Definition requested_routines (g : Globals) : list string :=
  match startAnalysisFromSymbol g with
  | Some sym => [sym]
  | None => []
  end
  ++ map fst (options_callbackRoutineEntry g)
  ++ map fst (options_callbackRoutineExit g).

(** What an event inserted by [IMG_Instrumentation] before the image-load
    callback can be. *)
Definition img_prefix_event (img : IMG) (g : Globals) (e : Event) : Prop :=
  e = EvInsertStartAddr (IMG_Entry img)
  \/ exists rtn p f,
       e = EvRtnInsertCall img rtn p f
       /\ rtn ∈ IMG_Routines img
       /\ In rtn (requested_routines g).

(** The image-load size that [callbackImageLoad] reports. *)
Definition imageSize (img : IMG) : Z :=
  wrap_uint (wrap_uint (IMG_HighAddress img + 1) - IMG_LowAddress img).

(** ** The entry point of the pintool *)

Inductive Signal :=
| SIGHUP | SIGINT | SIGQUIT | SIGILL | SIGABRT | SIGFPE
| SIGKILL | SIGSEGV | SIGPIPE | SIGALRM | SIGTERM.

(** The registered callbacks, by the function of main.cpp that is registered. *)
Inductive Registered :=
| R_IMG_Instrumentation
| R_TRACE_Instrumentation
| R_callbackFini
| R_callbackSyscallEntry
| R_callbackSyscallExit
| R_callbackSignals.

(** What [main] asks of the DBI engine and of the bindings, in order. *)
Inductive Setup :=
| DoPIN_InitSymbols
| DoPIN_SetSyntaxIntel
| DoPIN_Init
| DoUsage
| DoInittriton
| DoIMG_AddInstrumentFunction (f : Registered)
| DoTRACE_AddInstrumentFunction (f : Registered)
| DoPIN_AddFiniFunction (f : Registered)
| DoPIN_AddSyscallEntryFunction (f : Registered)
| DoPIN_AddSyscallExitFunction (f : Registered)
| DoPIN_InterceptSignal (sig : Signal) (f : Registered)
| DoInitBindings
| DoExecScript (script : string).

Inductive MainResult :=
| MainReturn (code : Z)
| MainThrow (what : string).

(* Usage function *)
Definition Usage : list Setup * Z := ([DoUsage], -1).

(* The pintool's entry point *)
Definition main (PIN_Init_fails : bool) (KnobPythonModule : string)
    (execScript : string -> bool) : list Setup * MainResult :=
  let init := [DoPIN_InitSymbols; DoPIN_SetSyntaxIntel; DoPIN_Init] in
  if PIN_Init_fails then (init ++ fst Usage, MainReturn (snd Usage))
  else
    let setup :=
      init ++
      [ (* Init the Triton module *)
        DoInittriton;
        (* Image callback *)
        DoIMG_AddInstrumentFunction R_IMG_Instrumentation;
        (* Instruction callback *)
        DoTRACE_AddInstrumentFunction R_TRACE_Instrumentation;
        (* End instrumentation callback *)
        DoPIN_AddFiniFunction R_callbackFini;
        (* Syscall entry callback *)
        DoPIN_AddSyscallEntryFunction R_callbackSyscallEntry;
        (* Syscall exit callback *)
        DoPIN_AddSyscallExitFunction R_callbackSyscallExit;
        (* Signals callback *)
        DoPIN_InterceptSignal SIGHUP R_callbackSignals;
        DoPIN_InterceptSignal SIGINT R_callbackSignals;
        DoPIN_InterceptSignal SIGQUIT R_callbackSignals;
        DoPIN_InterceptSignal SIGILL R_callbackSignals;
        DoPIN_InterceptSignal SIGABRT R_callbackSignals;
        DoPIN_InterceptSignal SIGFPE R_callbackSignals;
        DoPIN_InterceptSignal SIGKILL R_callbackSignals;
        DoPIN_InterceptSignal SIGSEGV R_callbackSignals;
        DoPIN_InterceptSignal SIGPIPE R_callbackSignals;
        DoPIN_InterceptSignal SIGALRM R_callbackSignals;
        DoPIN_InterceptSignal SIGTERM R_callbackSignals;
        (* Exec the Pin's python bindings *)
        DoInitBindings;
        DoExecScript KnobPythonModule ] in
    if negb (execScript KnobPythonModule)
    then (setup, MainThrow "tracer::pintool::main(): Script file can't be found.")
    else (setup, MainReturn 0).

(** Whether a setup step hands a function of main.cpp to the DBI engine. *)
Definition is_registration (s : Setup) : bool :=
  match s with
  | DoIMG_AddInstrumentFunction _ | DoTRACE_AddInstrumentFunction _
  | DoPIN_AddFiniFunction _ | DoPIN_AddSyscallEntryFunction _
  | DoPIN_AddSyscallExitFunction _ | DoPIN_InterceptSignal _ _ => true
  | _ => false
  end.

(** ** More sample configurations *)

(** Start condition: the routine [target]; address 0x4000 is also in the
    from-address set. *)
Definition start_at_symbol : Globals :=
  mkGlobals false empty_snapshot (-1) false (Some "target"%string) {[16384]} ∅
    [] [] [] [] 0 false.

(** An instruction that reads and writes memory and does not fall through. *)
Definition branch_ins (address : Z) : INS :=
  mkINS address 2 true false true false false 2 true 8.

(** An image whose only known routine is [malloc]. *)
Definition libc_img : IMG :=
  mkIMG true "/lib/libc.so.6" 4096 8191 4200 ["malloc"%string].

(** Routine callbacks asked for [malloc] (entry) and [free] (exit). *)
Definition routine_globals : Globals :=
  mkGlobals false empty_snapshot (-1) false (Some "main"%string) ∅ ∅
    [] [] [("malloc"%string, 1)] [("free"%string, 2)] 0 false.

(** A script that asks for a snapshot restore in its before hook. *)
Definition restore_callbacks : Callbacks :=
  mkCallbacks (fun _ _ => no_hook) (fun _ _ => no_hook) (fun _ => no_hook)
    (fun _ g => Some (set_snapshot
                        (mkSnapshot (snap_locked (snapshot g)) true
                                    (snap_memory (snapshot g))) g))
    (fun _ => no_hook) (fun _ _ => no_hook) no_hook
    (fun _ _ => no_hook) (fun _ _ => no_hook) (fun _ _ => no_hook)
    (fun _ _ _ => no_hook).

(** * Properties *)

(** ** strstr finds exactly the occurrences *)

Lemma starts_with_spec (needle hay : string) :
  starts_with needle hay = true <-> exists post, hay = String.append needle post.
Proof.
  revert hay; induction needle as [|c needle IH]; intros hay; simpl.
  - split; [intros _; exists hay; reflexivity | reflexivity].
  - destruct hay as [|d hay]; simpl.
    + split; [discriminate | intros [post H]; discriminate H].
    + rewrite andb_true_iff, Ascii.eqb_eq, IH. split.
      * intros [-> [post ->]]. exists post. reflexivity.
      * intros [post H]. injection H as -> ->. split; [reflexivity | eauto].
Qed.

Lemma strstr_occurs (hay needle : string) :
  strstr hay needle <> None <-> occurs_in needle hay.
Proof.
  induction hay as [|c hay IH].
  - cbn [strstr]. destruct (starts_with needle "") eqn:E.
    + split; [intros _ | discriminate].
      apply starts_with_spec in E as [post E]. exists ""%string, post. exact E.
    + split; [intros H; contradiction H; reflexivity |].
      intros [pre [post H]]. exfalso.
      destruct pre; [| discriminate H]. simpl in H.
      assert (starts_with needle "" = true) by (apply starts_with_spec; eauto).
      congruence.
  - cbn [strstr]. destruct (starts_with needle (String c hay)) eqn:E.
    + split; [intros _ | discriminate].
      apply starts_with_spec in E as [post E]. exists ""%string, post. exact E.
    + rewrite IH. split.
      * intros [pre [post ->]]. exists (String c pre), post. reflexivity.
      * intros [pre [post H]]. destruct pre as [|d pre]; simpl in H.
        -- assert (starts_with needle (String c hay) = true)
             by (apply starts_with_spec; eauto).
           congruence.
        -- injection H as _ ->. exists pre, post. reflexivity.
Qed.

Lemma strstr_any_spec (name : string) (l : list string) :
  strstr_any name l = true <-> exists s, s ∈ l /\ occurs_in s name.
Proof.
  induction l as [|it l IH]; simpl.
  - split; [discriminate | intros [s [H _]]; inversion H].
  - destruct (strstr name it) eqn:E.
    + split; [intros _ | reflexivity].
      exists it. split; [left |]. apply strstr_occurs. congruence.
    + rewrite IH. split.
      * intros [s [Hs Ho]]. exists s. split; [right; exact Hs | exact Ho].
      * intros [s [Hs Ho]]. apply elem_of_cons in Hs as [-> | Hs].
        -- apply strstr_occurs in Ho. congruence.
        -- eauto.
Qed.

(** ** The range selector *)

Section RangeSelector.

Variable pin : Pin.

(** With a target thread chosen the first test of [checkUnlockAnalysis]
    answers at once. *)
Lemma checkUnlockAnalysis_closed (address : Z) (g : Globals) :
  targetThreadId g <> -1 ->
  checkUnlockAnalysis pin address g = ([], Ret (false, g)).
Proof.
  intros H. unfold checkUnlockAnalysis, bind, get, ret.
  destruct (Z.eqb_spec (targetThreadId g) (-1)) as [E | _]; [contradiction |].
  reflexivity.
Qed.

Lemma checkUnlockAnalysis_returns (address : Z) (g : Globals) :
  exists tr b g', checkUnlockAnalysis pin address g = (tr, Ret (b, g'))
    /\ (b = false -> tr = [] /\ g' = g)
    /\ (b = true -> tr = [EvLockClient; EvUnlockClient]
                    /\ g' = set_analysisTrigger true (set_targetThreadId (PIN_ThreadId pin) g)).
Proof.
  unfold checkUnlockAnalysis, toggleWrapper, PIN_LockClient, PIN_UnlockClient,
    bind, get, ret, modify, emit.
  destruct (negb (targetThreadId g =? -1)); cbn.
  { eexists _, _, _. split; [reflexivity |]. split; [auto | discriminate]. }
  destruct (startAnalysisFromSymbol g) as [sym|].
  - destruct (String.eqb _ sym); cbn; eexists _, _, _;
      (split; [reflexivity |]); split; solve [auto | discriminate].
  - repeat case_bool_decide; cbn; eexists _, _, _;
      (split; [reflexivity |]); split; solve [auto | discriminate].
Qed.

End RangeSelector.

(** C3 (one-shot unlock): once the target thread is set
    ([targetThreadId <> -1]), a call to [checkUnlockAnalysis] returns false
    and leaves every global, the target thread and the trigger included, as
    it was, whatever the address and the configured start conditions. *)
Theorem C3_checkUnlockAnalysis_one_shot (pin : Pin) (address : Z) (g : Globals) :
  targetThreadId g <> -1 ->
  checkUnlockAnalysis pin address g = ([], Ret (false, g)).
Proof. apply checkUnlockAnalysis_closed. Qed.

Lemma C3_witness :
  16384 ∈ startAnalysisFromAddr unlocked_by_thread_3
  /\ checkUnlockAnalysis sample_pin 16384 unlocked_by_thread_3
     = ([], Ret (false, unlocked_by_thread_3)).
Proof.
  split.
  - simpl. set_solver.
  - apply (C3_checkUnlockAnalysis_one_shot sample_pin 16384 unlocked_by_thread_3).
    simpl. lia.
Defined.

(** C5 (unlock from the address and offset sets): with the target thread
    unset and no start symbol configured, [checkUnlockAnalysis address]
    returns true exactly when the address is in the from-address set or its
    offset in its image is in the from-offset set; when it returns true the
    target thread is the calling thread and the trigger is on, and when it
    returns false nothing changed. *)
Theorem C5_checkUnlockAnalysis_address_offset (pin : Pin) (address : Z) (g : Globals) :
  targetThreadId g = -1 ->
  startAnalysisFromSymbol g = None ->
  exists tr b g',
    checkUnlockAnalysis pin address g = (tr, Ret (b, g'))
    /\ (b = true <-> address ∈ startAnalysisFromAddr g
                     \/ getInsOffset pin address ∈ startAnalysisFromOffset g)
    /\ (b = true -> targetThreadId g' = PIN_ThreadId pin /\ analysisTrigger g' = true)
    /\ (b = false -> g' = g).
Proof.
  intros Ht Hs.
  unfold checkUnlockAnalysis, toggleWrapper, PIN_LockClient, PIN_UnlockClient,
    bind, get, ret, modify, emit.
  rewrite Ht, Hs. cbn.
  repeat case_bool_decide; cbn; eexists _, _, _; (split; [reflexivity |]);
    repeat split; intros; try discriminate; try tauto; auto.
Qed.

Lemma C5_witness :
  exists tr b g',
    checkUnlockAnalysis sample_pin 16384 start_at_0x4000 = (tr, Ret (b, g'))
    /\ (b = true <-> 16384 ∈ startAnalysisFromAddr start_at_0x4000
                     \/ getInsOffset sample_pin 16384 ∈ startAnalysisFromOffset start_at_0x4000)
    /\ (b = true -> targetThreadId g' = PIN_ThreadId sample_pin /\ analysisTrigger g' = true)
    /\ (b = false -> g' = start_at_0x4000).
Proof.
  apply (C5_checkUnlockAnalysis_address_offset sample_pin 16384 start_at_0x4000);
    reflexivity.
Defined.

(** ** The image filter and the trace instrumentation *)

Section Instrumentation.

Variable pin : Pin.

Lemma instructionBlacklisted_spec (address : Z) (g : Globals) :
  instructionBlacklisted pin address g = true
  <-> exists b, b ∈ imageBlacklist g /\ occurs_in b (getImageName pin address).
Proof. apply strstr_any_spec. Qed.

Lemma instructionWhitelisted_spec (address : Z) (g : Globals) :
  instructionWhitelisted pin address g = true
  <-> imageWhitelist g = []
      \/ exists w, w ∈ imageWhitelist g /\ occurs_in w (getImageName pin address).
Proof.
  unfold instructionWhitelisted.
  destruct (imageWhitelist g) as [|w l] eqn:E.
  - split; [left; reflexivity | reflexivity].
  - rewrite strstr_any_spec. split; [right; assumption |].
    intros [H | H]; [discriminate H | exact H].
Qed.

Lemma imageFiltered_spec (address : Z) (g : Globals) :
  imageFiltered pin address g = false
  <-> instructionBlacklisted pin address g = false
      /\ instructionWhitelisted pin address g = true.
Proof.
  unfold imageFiltered.
  destruct (instructionBlacklisted pin address g),
    (instructionWhitelisted pin address g); simpl; intuition congruence.
Qed.

(** One turn of the inner loop: the unlock check runs first, then the
    instruction is passed over or receives its analysis calls. *)
Lemma TRACE_Instrumentation_ins_run (ins : INS) (g : Globals) :
  exists tr b g1 calls,
    checkUnlockAnalysis pin (INS_Address ins) g = (tr, Ret (b, g1))
    /\ TRACE_Instrumentation_ins pin ins g = (tr ++ calls, Ret (tt, g1))
    /\ (analysisTrigger g1 = false \/ imageFiltered pin (INS_Address ins) g1 = true ->
        calls = [])
    /\ (analysisTrigger g1 = true -> imageFiltered pin (INS_Address ins) g1 = false ->
        exists mem_calls rest,
          calls = EvNewInstruction ins :: mem_calls
                  ++ EvInsInsertCall ins IPOINT_BEFORE A_callbackBefore :: rest).
Proof.
  destruct (checkUnlockAnalysis_returns pin (INS_Address ins) g)
    as (tr & b & g1 & Hc & _).
  unfold TRACE_Instrumentation_ins, bind at 1. rewrite Hc.
  unfold bind at 1, get at 1.
  destruct (analysisTrigger g1) eqn:Et; cbn [negb].
  2:{ exists tr, b, g1, []. cbn. rewrite app_nil_r. repeat split; auto; congruence. }
  destruct (imageFiltered pin (INS_Address ins) g1) eqn:Ef.
  { exists tr, b, g1, []. cbn. rewrite app_nil_r. repeat split; auto; congruence. }
  unfold bind, emit, when, ret.
  destruct (INS_IsMemoryRead ins), (INS_HasMemoryRead2 ins), (INS_IsMemoryWrite ins),
    (eqb (INS_IsSyscall ins) false),
    ((1 <? INS_OperandCount ins) && INS_MemoryOperandIsWritten0 ins); cbn;
    eexists tr, b, g1, _; (split; [reflexivity |]); (split; [reflexivity |]);
    (split; [intros [H | H]; congruence |]); intros _ _;
    match goal with
    | |- exists mem_calls rest, ?e :: ?l = _ =>
        let rec go pre l :=
          lazymatch l with
          | EvInsInsertCall _ IPOINT_BEFORE A_callbackBefore :: ?r =>
              exists (rev pre), r; reflexivity
          | ?x :: ?l' => go (x :: pre) l'
          end in
        go (@nil Event) l
    end.
Qed.

Lemma forM_TRACE_Instrumentation_ins (bbl : BBL) (g : Globals) :
  exists tr,
    forM bbl (TRACE_Instrumentation_ins pin) g
    = (tr, Ret (tt, fold_left (fun g ins => unlockedGlobals pin (INS_Address ins) g) bbl g)).
Proof.
  revert g; induction bbl as [|ins bbl IH]; intros g.
  - exists []. reflexivity.
  - destruct (TRACE_Instrumentation_ins_run ins g)
      as (tr & b & g1 & calls & Hc & Hrun & _).
    destruct (IH g1) as [tr' IH'].
    exists ((tr ++ calls) ++ tr').
    assert (Hg : unlockedGlobals pin (INS_Address ins) g = g1)
      by (unfold unlockedGlobals; rewrite Hc; reflexivity).
    cbn [forM fold_left]. unfold bind at 1. rewrite Hrun, IH', Hg. reflexivity.
Qed.

Lemma TRACE_Instrumentation_globals (trace : TRACE) (g : Globals) :
  exists tr,
    TRACE_Instrumentation pin trace g
    = (tr, Ret (tt, fold_left (fun g ins => unlockedGlobals pin (INS_Address ins) g)
                      (concat trace) g)).
Proof.
  unfold TRACE_Instrumentation.
  revert g; induction trace as [|bbl trace IH]; intros g.
  - exists []. reflexivity.
  - destruct (forM_TRACE_Instrumentation_ins bbl g) as [tr Hb].
    destruct (IH (fold_left (fun g ins => unlockedGlobals pin (INS_Address ins) g) bbl g))
      as [tr' IH'].
    exists (tr ++ tr').
    cbn [forM concat]. unfold bind at 1. rewrite Hb, IH', fold_left_app. reflexivity.
Qed.

End Instrumentation.

(** C6 (image filter): an address whose image path contains some blacklist
    entry is excluded, whatever the whitelist says; an address whose image
    path contains no blacklist entry is included exactly when the whitelist
    is empty or the path contains some whitelist entry.  In the trace
    instrumentation (analysis running) an excluded instruction receives no
    call and an included one receives [callbackBefore]. *)
Theorem C6_image_filter (pin : Pin) (address : Z) (g : Globals) :
  ((exists b, b ∈ imageBlacklist g /\ occurs_in b (getImageName pin address)) ->
   imageFiltered pin address g = true)
  /\ (~ (exists b, b ∈ imageBlacklist g /\ occurs_in b (getImageName pin address)) ->
      (imageFiltered pin address g = false
       <-> imageWhitelist g = []
           \/ exists w, w ∈ imageWhitelist g /\ occurs_in w (getImageName pin address)))
  /\ (forall ins : INS,
        INS_Address ins = address ->
        analysisTrigger g = true ->
        targetThreadId g <> -1 ->
        (imageFiltered pin address g = true ->
         TRACE_Instrumentation_ins pin ins g = ([], Ret (tt, g)))
        /\ (imageFiltered pin address g = false ->
            In (EvInsInsertCall ins IPOINT_BEFORE A_callbackBefore)
               (trace_of (TRACE_Instrumentation_ins pin ins g)))).
Proof.
  split; [| split].
  - intros Hb. apply instructionBlacklisted_spec in Hb.
    unfold imageFiltered. rewrite Hb. reflexivity.
  - intros Hb. rewrite imageFiltered_spec, <- instructionWhitelisted_spec.
    rewrite <- instructionBlacklisted_spec in Hb.
    destruct (instructionBlacklisted pin address g); intuition congruence.
  - intros ins <- Ht Hth.
    destruct (TRACE_Instrumentation_ins_run pin ins g)
      as (tr & b & g1 & calls & Hc & Hrun & Hskip & Hins).
    rewrite (checkUnlockAnalysis_closed pin _ g Hth) in Hc.
    injection Hc as <- <- <-. split; intros Hf.
    + rewrite Hrun, Hskip by (right; exact Hf). reflexivity.
    + destruct (Hins Ht Hf) as (mem_calls & rest & ->).
      rewrite Hrun. cbn. right. apply in_or_app. right. left. reflexivity.
Qed.

Lemma C6_witness :
  imageFiltered sample_pin 16384 start_in_blacklisted_image = true
  /\ (exists w, w ∈ imageWhitelist start_in_blacklisted_image
                /\ occurs_in w (getImageName sample_pin 16384)).
Proof.
  split.
  - apply (proj1 (C6_image_filter sample_pin 16384 start_in_blacklisted_image)).
    exists "libc"%string. split; [left |].
    exists "/lib/"%string, ".so.6"%string. reflexivity.
  - exists "libc"%string. split; [left |].
    exists "/lib/"%string, ".so.6"%string. reflexivity.
Defined.

(** C10 (unlock check before the filter): the globals that
    [TRACE_Instrumentation] leaves are those of running [checkUnlockAnalysis]
    on every instruction address in order, whatever the image filter
    answers; in particular an instruction at a configured start address in a
    filtered (blacklisted or non-whitelisted) image sets the target thread
    and turns the trigger on, and receives no analysis call. *)
Theorem C10_unlock_check_precedes_filter (pin : Pin) :
  (forall (trace : TRACE) (g : Globals),
     outcome_of (TRACE_Instrumentation pin trace g)
     = Ret (tt, fold_left (fun g ins => unlockedGlobals pin (INS_Address ins) g)
                  (concat trace) g))
  /\ (forall (ins : INS) (g : Globals),
        targetThreadId g = -1 ->
        startAnalysisFromSymbol g = None ->
        INS_Address ins ∈ startAnalysisFromAddr g ->
        imageFiltered pin (INS_Address ins) g = true ->
        TRACE_Instrumentation_ins pin ins g
        = ([EvLockClient; EvUnlockClient],
           Ret (tt, set_analysisTrigger true (set_targetThreadId (PIN_ThreadId pin) g)))).
Proof.
  split.
  - intros trace g. destruct (TRACE_Instrumentation_globals pin trace g) as [tr ->].
    reflexivity.
  - intros ins g Ht Hs Ha Hf.
    unfold TRACE_Instrumentation_ins, checkUnlockAnalysis, toggleWrapper,
      PIN_LockClient, PIN_UnlockClient, bind, get, ret, modify, emit.
    rewrite Ht, Hs. cbn. rewrite bool_decide_eq_true_2 by exact Ha. cbn.
    change (imageFiltered pin (INS_Address ins)
              (set_analysisTrigger true (set_targetThreadId (PIN_ThreadId pin) g)))
      with (imageFiltered pin (INS_Address ins) g).
    rewrite Hf. reflexivity.
Qed.

Lemma C10_witness :
  instructionBlacklisted sample_pin 16384 start_in_blacklisted_image = true
  /\ TRACE_Instrumentation_ins sample_pin (plain_ins 16384) start_in_blacklisted_image
     = ([EvLockClient; EvUnlockClient],
        Ret (tt, set_analysisTrigger true
                   (set_targetThreadId 0 start_in_blacklisted_image))).
Proof.
  split; [reflexivity |].
  apply (proj2 (C10_unlock_check_precedes_filter sample_pin)
           (plain_ins 16384) start_in_blacklisted_image).
  - reflexivity.
  - reflexivity.
  - simpl. set_solver.
  - reflexivity.
Defined.

(** ** The before-instruction callback *)

(** Runs a callback symbolically: unfolds the monad and splits on every hook
    result and every flag it meets. *)
Ltac cb_unfold :=
  unfold callbackBefore, callbackAfter, callbackSignals, PIN_LockClient,
    PIN_UnlockClient, bind, call, emit, modify, get, ret, when, exit,
    trace_of, outcome_of, analysisLocked, mustBeRestored in *.

Ltac cb_step :=
  match goal with
  | H : ?x = _ |- context [match ?x with _ => _ end] => rewrite H
  | |- context [match ?f ?g with Some _ => _ | None => _ end] =>
      let E := fresh "Ehook" in destruct (f g) eqn:E
  | |- context [if ?b then _ else _] =>
      let E := fresh "Eflag" in destruct b eqn:E
  end.

Section Before.

Variable cb : Callbacks.
Variable rt : Runtime.
Variables (tritonInst : InstPtr) (addr size : Z) (ctx : CONTEXT) (threadId : THREADID).

Lemma callbackBefore_first_hook (g : Globals) :
  exists rest,
    trace_of (callbackBefore cb rt tritonInst addr size ctx threadId g)
    = EvPreProcessing tritonInst threadId :: rest.
Proof.
  unfold callbackBefore. unfold bind at 1. unfold call at 1.
  destruct (preProcessing cb tritonInst threadId g) as [g1|].
  - match goal with
    | |- context [let (_, _) := ?r in _] => destruct r as [t2 o]
    end.
    exists t2. reflexivity.
  - exists []. reflexivity.
Qed.

Lemma callbackBefore_locked (g g1 : Globals) :
  preProcessing cb tritonInst threadId g = Some g1 ->
  analysisLocked threadId g1 = true ->
  callbackBefore cb rt tritonInst addr size ctx threadId g
  = ([EvPreProcessing tritonInst threadId], Ret (tt, g1)).
Proof.
  intros Hpre Hlocked. unfold callbackBefore, bind, call, get.
  rewrite Hpre, Hlocked. reflexivity.
Qed.

End Before.

(** C4 (pre-processing hook, then the lock test): every run of
    [callbackBefore] starts by invoking the preProcessing hook, whatever the trigger says;
    when the hook has returned and the trigger is then off or the calling
    thread is not the target thread, the callback returns at once: it does
    nothing else (no context update, no reset, no disassembly, no semantics,
    no other hook) and leaves the globals as the hook left them. *)
Theorem C4_callbackBefore_preProcessing_then_lock_test (cb : Callbacks) (rt : Runtime)
    (tritonInst : InstPtr) (addr size : Z) (ctx : CONTEXT) (threadId : THREADID)
    (g : Globals) :
  (exists rest,
     trace_of (callbackBefore cb rt tritonInst addr size ctx threadId g)
     = EvPreProcessing tritonInst threadId :: rest)
  /\ (forall g1,
        preProcessing cb tritonInst threadId g = Some g1 ->
        analysisTrigger g1 = false \/ threadId <> targetThreadId g1 ->
        callbackBefore cb rt tritonInst addr size ctx threadId g
        = ([EvPreProcessing tritonInst threadId], Ret (tt, g1))).
Proof.
  split; [apply callbackBefore_first_hook |].
  intros g1 Hpre Hlocked. apply callbackBefore_locked; [exact Hpre |].
  unfold analysisLocked. destruct Hlocked as [-> | Hne]; [reflexivity |].
  apply orb_true_iff. right. apply negb_true_iff, Z.eqb_neq, Hne.
Qed.

Lemma C4_witness :
  callbackBefore idle_callbacks runtime_spec 7 16384 4 9 5 running_globals
  = ([EvPreProcessing 7 5], Ret (tt, running_globals)).
Proof.
  apply (proj2 (C4_callbackBefore_preProcessing_then_lock_test idle_callbacks
                  runtime_spec 7 16384 4 9 5 running_globals) running_globals).
  - reflexivity.
  - right. simpl. lia.
Defined.

(** C1, as the code has it: with the analysis unlocked, the context override
    is applied in this dynamic execution (Instruction reset, then
    [executeContext], called on the globals the before-IR hook left) exactly
    when no override was pending at the before-IR stage and the before-IR
    hook, having returned, queued one.  An override that was already pending
    is not applied: neither the before-IR hook nor [executeContext] is
    invoked, the flag is cleared, and the run goes straight on to
    [buildSemantics] and to the before hook, which receives the globals with
    the flag cleared.  A before-IR hook that does not return ends the run
    there. *)
Theorem C1_override_applied_when_set_by_hook (cb : Callbacks) (rt : Runtime)
    (tritonInst : InstPtr) (addr size : Z) (ctx : CONTEXT) (threadId : THREADID)
    (g g1 : Globals) :
  preProcessing cb tritonInst threadId g = Some g1 ->
  analysisLocked threadId g1 = false ->
  (mustBeExecuted g1 = true ->
   ~ In EvExecuteContext
       (trace_of (callbackBefore cb rt tritonInst addr size ctx threadId g))
   /\ ~ In (EvBeforeIRProc tritonInst)
         (trace_of (callbackBefore cb rt tritonInst addr size ctx threadId g))
   /\ (before cb tritonInst (set_mustBeExecuted false (set_lastContext ctx g1)) = None ->
       callbackBefore cb rt tritonInst addr size ctx threadId g
       = (before_prologue tritonInst addr size ctx threadId
          ++ [EvBuildSemantics tritonInst; EvBefore tritonInst],
          Diverted))
   /\ (forall g3,
         before cb tritonInst (set_mustBeExecuted false (set_lastContext ctx g1)) = Some g3 ->
         (exists post,
            trace_of (callbackBefore cb rt tritonInst addr size ctx threadId g)
            = before_prologue tritonInst addr size ctx threadId
              ++ [EvBuildSemantics tritonInst; EvBefore tritonInst] ++ post)
         /\ (mustBeRestored (snapshot g3) = false ->
             forall g4,
               postProcessing cb tritonInst threadId g3 = Some g4 ->
               callbackBefore cb rt tritonInst addr size ctx threadId g
               = (before_prologue tritonInst addr size ctx threadId
                  ++ [EvBuildSemantics tritonInst; EvBefore tritonInst;
                      EvPostProcessing tritonInst threadId; EvSetTrust tritonInst false;
                      EvUnlockClient],
                  Ret (tt, g4)))))
  /\ (mustBeExecuted g1 = false ->
      (beforeIRProc cb tritonInst (set_lastContext ctx g1) = None ->
       callbackBefore cb rt tritonInst addr size ctx threadId g
       = (before_prologue tritonInst addr size ctx threadId ++ [EvBeforeIRProc tritonInst],
          Diverted))
      /\ (forall g2,
            beforeIRProc cb tritonInst (set_lastContext ctx g1) = Some g2 ->
            (mustBeExecuted g2 = true ->
             (exists post,
                trace_of (callbackBefore cb rt tritonInst addr size ctx threadId g)
                = before_prologue tritonInst addr size ctx threadId
                  ++ [EvBeforeIRProc tritonInst; EvReset tritonInst; EvExecuteContext]
                  ++ post)
             /\ (executeContext rt g2 = None ->
                 callbackBefore cb rt tritonInst addr size ctx threadId g
                 = (before_prologue tritonInst addr size ctx threadId
                    ++ [EvBeforeIRProc tritonInst; EvReset tritonInst; EvExecuteContext],
                    Diverted)))
            /\ (mustBeExecuted g2 = false ->
                ~ In EvExecuteContext
                    (trace_of (callbackBefore cb rt tritonInst addr size ctx threadId g))
                /\ exists post,
                     trace_of (callbackBefore cb rt tritonInst addr size ctx threadId g)
                     = before_prologue tritonInst addr size ctx threadId
                       ++ [EvBeforeIRProc tritonInst; EvBuildSemantics tritonInst]
                       ++ post))).
Proof.
  intros Hpre Hlocked. split.
  - intros Hpend. cb_unfold. rewrite Hpre. cbn. rewrite Hlocked. cbn.
    rewrite Hpend. cbn. split; [| split; [| split]].
    + repeat (cb_step; cbn); intros H; intuition discriminate.
    + repeat (cb_step; cbn); intros H; intuition discriminate.
    + intros Hb. rewrite Hb. reflexivity.
    + intros g3 Hb. rewrite Hb. cbn. split.
      * repeat (cb_step; cbn); eexists; reflexivity.
      * intros Hr g4 Hp. rewrite Hr. cbn. rewrite Hp. reflexivity.
  - intros Hpend. cb_unfold. rewrite Hpre. cbn. rewrite Hlocked. cbn.
    rewrite Hpend. cbn. split.
    + intros Hir. rewrite Hir. reflexivity.
    + intros g2 Hir. rewrite Hir. cbn. split; intros Hflag; rewrite Hflag; cbn.
      * split.
        -- repeat (cb_step; cbn); eexists; reflexivity.
        -- intros He. rewrite He. reflexivity.
      * split.
        -- repeat (cb_step; cbn); intros H; intuition discriminate.
        -- repeat (cb_step; cbn); eexists; reflexivity.
Qed.

Lemma C1_witness :
  (exists post,
     trace_of (callbackBefore override_callbacks runtime_spec 7 16384 4 9 0 running_globals)
     = before_prologue 7 16384 4 9 0
       ++ [EvBeforeIRProc 7; EvReset 7; EvExecuteContext] ++ post)
  /\ callbackBefore idle_callbacks runtime_spec 7 16384 4 9 0 override_pending_globals
     = (before_prologue 7 16384 4 9 0
        ++ [EvBuildSemantics 7; EvBefore 7; EvPostProcessing 7 0; EvSetTrust 7 false;
            EvUnlockClient],
        Ret (tt, set_lastContext 9 running_globals)).
Proof.
  split.
  - destruct (C1_override_applied_when_set_by_hook override_callbacks runtime_spec
                7 16384 4 9 0 running_globals running_globals eq_refl eq_refl) as [_ H].
    destruct (H eq_refl) as [_ H2].
    destruct (H2 _ eq_refl) as [H3 _].
    exact (proj1 (H3 eq_refl)).
  - destruct (C1_override_applied_when_set_by_hook idle_callbacks runtime_spec
                7 16384 4 9 0 override_pending_globals override_pending_globals
                eq_refl eq_refl) as [H _].
    destruct (H eq_refl) as (_ & _ & _ & H4).
    destruct (H4 _ eq_refl) as [_ H5].
    exact (H5 eq_refl _ eq_refl).
Defined.

(** C1 fails as stated: with an override already pending when the before-IR
    stage is reached, the run neither resets the Instruction nor calls
    [executeContext]; it clears the flag and goes on to build the semantics. *)
Lemma C1_counterexample :
  mustBeExecuted override_pending_globals = true
  /\ analysisLocked 0 override_pending_globals = false
  /\ callbackBefore idle_callbacks runtime_spec 7 16384 4 9 0 override_pending_globals
     = (before_prologue 7 16384 4 9 0
        ++ [EvBuildSemantics 7; EvBefore 7; EvPostProcessing 7 0; EvSetTrust 7 false;
            EvUnlockClient],
        Ret (tt, set_lastContext 9 running_globals))
  /\ ~ In EvExecuteContext
         (trace_of (callbackBefore idle_callbacks runtime_spec 7 16384 4 9 0
                      override_pending_globals))
  /\ ~ In (EvReset 7)
         (trace_of (callbackBefore idle_callbacks runtime_spec 7 16384 4 9 0
                      override_pending_globals)).
Proof.
  repeat split; try reflexivity; cbn; intros H; intuition discriminate.
Qed.

(** What follows a call to [executeContext] in [callbackBefore]: the call is
    made only after the before-IR hook queued an override; if it returns,
    [buildSemantics] is the next action, and if it keeps control the run
    ends there. *)
Lemma callbackBefore_executeContext_cases (cb : Callbacks) (rt : Runtime)
    (tritonInst : InstPtr) (addr size : Z) (ctx : CONTEXT) (threadId : THREADID)
    (g : Globals) :
  In EvExecuteContext
     (trace_of (callbackBefore cb rt tritonInst addr size ctx threadId g)) ->
  exists g1 g2,
    preProcessing cb tritonInst threadId g = Some g1
    /\ beforeIRProc cb tritonInst (set_lastContext ctx g1) = Some g2
    /\ mustBeExecuted g2 = true
    /\ match executeContext rt g2 with
       | Some _ =>
           exists post,
             trace_of (callbackBefore cb rt tritonInst addr size ctx threadId g)
             = before_prologue tritonInst addr size ctx threadId
               ++ [EvBeforeIRProc tritonInst; EvReset tritonInst; EvExecuteContext;
                   EvBuildSemantics tritonInst]
               ++ post
       | None =>
           callbackBefore cb rt tritonInst addr size ctx threadId g
           = (before_prologue tritonInst addr size ctx threadId
              ++ [EvBeforeIRProc tritonInst; EvReset tritonInst; EvExecuteContext],
              Diverted)
       end.
Proof.
  cb_unfold.
  destruct (preProcessing cb tritonInst threadId g) as [g1|] eqn:Hpre; cbn;
    [| intros H; intuition discriminate].
  destruct (negb (analysisTrigger g1) || negb (threadId =? targetThreadId g1)); cbn;
    [intros H; intuition discriminate |].
  destruct (mustBeExecuted g1) eqn:Hpend; cbn.
  { repeat (cb_step; cbn); intros H; exfalso; intuition discriminate. }
  destruct (beforeIRProc cb tritonInst (set_lastContext ctx g1)) as [g2|] eqn:Hir; cbn;
    [| intros H; exfalso; intuition discriminate].
  destruct (mustBeExecuted g2) eqn:Hflag; cbn.
  2:{ repeat (cb_step; cbn); intros H; exfalso; intuition discriminate. }
  intros _. exists g1, g2. repeat (split; [reflexivity || assumption |]).
  destruct (executeContext rt g2) as [g3|]; cbn; [| reflexivity].
  repeat (cb_step; cbn); eexists; reflexivity.
Qed.

(** C2 (the override short-circuits semantics building): [executeContext]
    hands the thread over to the DBI engine at the queued context and does
    not come back to the callback.  Then, whenever [callbackBefore] invokes
    [executeContext], that dynamic execution ends with the Instruction reset
    and the call, and [buildSemantics] is not performed in it. *)
Theorem C2_override_short_circuits_semantics (cb : Callbacks) (rt : Runtime)
    (tritonInst : InstPtr) (addr size : Z) (ctx : CONTEXT) (threadId : THREADID)
    (g : Globals) :
  (forall g0, mustBeExecuted g0 = true -> executeContext rt g0 = None) ->
  In EvExecuteContext
     (trace_of (callbackBefore cb rt tritonInst addr size ctx threadId g)) ->
  ~ In (EvBuildSemantics tritonInst)
      (trace_of (callbackBefore cb rt tritonInst addr size ctx threadId g))
  /\ callbackBefore cb rt tritonInst addr size ctx threadId g
     = (before_prologue tritonInst addr size ctx threadId
        ++ [EvBeforeIRProc tritonInst; EvReset tritonInst; EvExecuteContext],
        Diverted).
Proof.
  intros Hkeep Hin.
  destruct (callbackBefore_executeContext_cases cb rt tritonInst addr size ctx threadId g Hin)
    as (g1 & g2 & _ & _ & Hflag & Hcase).
  rewrite (Hkeep g2 Hflag) in Hcase. rewrite Hcase. split; [| reflexivity].
  unfold trace_of. cbn. intros H. intuition discriminate.
Qed.

Lemma C2_witness :
  ~ In (EvBuildSemantics 7)
      (trace_of (callbackBefore override_callbacks runtime_spec 7 16384 4 9 0 running_globals))
  /\ callbackBefore override_callbacks runtime_spec 7 16384 4 9 0 running_globals
     = (before_prologue 7 16384 4 9 0 ++ [EvBeforeIRProc 7; EvReset 7; EvExecuteContext],
        Diverted).
Proof.
  apply (C2_override_short_circuits_semantics override_callbacks runtime_spec
           7 16384 4 9 0 running_globals).
  - intros g0 _. reflexivity.
  - cbn. tauto.
Defined.

(** ** Signals *)

(** C9 (signals): [callbackSignals] invokes the signals hook for every
    signal it receives, whatever the trigger and the target thread are; and
    whenever the hook returns, the callback releases the lock and the
    process exits with code 0, whatever the hook left in the globals. *)
Theorem C9_callbackSignals_hook_then_exit (cb : Callbacks)
    (threadId : THREADID) (sig : Z) (ctx : CONTEXT) (g : Globals) :
  (exists rest,
     trace_of (callbackSignals cb threadId sig ctx g)
     = EvLockClient :: EvSignals threadId sig :: rest)
  /\ (forall g',
        signals cb threadId sig (set_lastContext ctx g) = Some g' ->
        callbackSignals cb threadId sig ctx g
        = ([EvLockClient; EvSignals threadId sig; EvUnlockClient], Exited 0))
  /\ (signals cb threadId sig (set_lastContext ctx g) = None ->
      callbackSignals cb threadId sig ctx g
      = ([EvLockClient; EvSignals threadId sig], Diverted)).
Proof.
  cb_unfold. cbn.
  destruct (signals cb threadId sig (set_lastContext ctx g)) as [g'|]; cbn.
  - split; [eexists; reflexivity |]. split; [reflexivity | discriminate].
  - split; [eexists; reflexivity |]. split; [discriminate | reflexivity].
Qed.

Lemma C9_witness :
  callbackSignals idle_callbacks 5 11 9 initial_globals
  = ([EvLockClient; EvSignals 5 11; EvUnlockClient], Exited 0).
Proof.
  apply (proj1 (proj2 (C9_callbackSignals_hook_then_exit idle_callbacks 5 11 9
                         initial_globals)) (set_lastContext 9 initial_globals)).
  reflexivity.
Defined.

(** ** The snapshot-capture callback *)

Lemma set_snapshot_same (g : Globals) : set_snapshot (snapshot g) g = g.
Proof. destruct g; reflexivity. Qed.

Lemma addModification_locked (a b : Z) (s : Snapshot) :
  snap_locked (addModification a b s) = snap_locked s.
Proof.
  unfold addModification. destruct (snap_locked s) eqn:E; [exact E |].
  destruct (snap_memory s !! a); [exact E | reflexivity].
Qed.

Lemma addModification_lookup (a b a' : Z) (s : Snapshot) :
  snap_locked s = false ->
  snap_memory (addModification a b s) !! a'
  = match snap_memory s !! a' with
    | Some v => Some v
    | None => if decide (a = a') then Some b else None
    end.
Proof.
  intros Hl. unfold addModification. rewrite Hl.
  destruct (snap_memory s !! a) as [v|] eqn:Ea; cbn.
  - destruct (snap_memory s !! a') eqn:Ea'; [reflexivity |].
    case_decide; [congruence | reflexivity].
  - rewrite lookup_insert. case_decide as Hd.
    + subst a'. rewrite Ea. reflexivity.
    + destruct (snap_memory s !! a'); reflexivity.
Qed.

Section SnapshotCapture.

Variable pin : Pin.

Lemma snapshot_saved_locked (addrs : list Z) (s : Snapshot) :
  snap_locked (snapshot_saved pin addrs s) = snap_locked s.
Proof.
  revert s; induction addrs as [|a addrs IH]; intros s; [reflexivity |].
  unfold snapshot_saved in *. cbn. rewrite IH. apply addModification_locked.
Qed.

(** First write wins: an address of the write keeps the byte saved earlier
    for it, and otherwise holds the byte now in memory. *)
Lemma snapshot_saved_lookup (addrs : list Z) (s : Snapshot) (a : Z) :
  snap_locked s = false ->
  a ∈ addrs ->
  snap_memory (snapshot_saved pin addrs s) !! a
  = Some (default (memoryByte pin a) (snap_memory s !! a)).
Proof.
  revert s; induction addrs as [|a0 addrs IH]; intros s Hl Hin.
  - inversion Hin.
  - unfold snapshot_saved in *. cbn [fold_left].
    destruct (decide (a ∈ addrs)) as [Hin' | Hout].
    + rewrite IH by (rewrite ?addModification_locked; assumption).
      rewrite addModification_lookup by exact Hl.
      destruct (snap_memory s !! a); [reflexivity |].
      case_decide; [subst; reflexivity | reflexivity].
    + apply elem_of_cons in Hin as [-> | Hin]; [| contradiction].
      assert (Hkeep : forall l s', a0 ∉ l ->
                snap_memory (fold_left (fun s a => addModification a (memoryByte pin a) s) l s') !! a0
                = snap_memory s' !! a0).
      { clear. induction l as [|x l IHl]; intros s' Hx; [reflexivity |].
        cbn [fold_left]. rewrite IHl by set_solver.
        unfold addModification. destruct (snap_locked s'); [reflexivity |].
        destruct (snap_memory s' !! x); [reflexivity |].
        cbn. apply lookup_insert_ne. set_solver. }
      rewrite Hkeep by exact Hout.
      rewrite addModification_lookup by exact Hl.
      destruct (snap_memory s !! a0); [reflexivity |].
      rewrite decide_True by reflexivity. reflexivity.
Qed.

Lemma callbackSnapshot_loop (mem : Z) (l : list Z) (g : Globals) :
  forM l (fun i =>
    let a := wrap_uint (mem + i) in
    bind (emit (EvAddModification a (memoryByte pin a)))
      (fun _ => modify (fun g => set_snapshot (addModification a (memoryByte pin a) (snapshot g)) g))) g
  = (snapshot_events pin (map (fun i => wrap_uint (mem + i)) l),
     Ret (tt, set_snapshot
                (snapshot_saved pin (map (fun i => wrap_uint (mem + i)) l) (snapshot g)) g)).
Proof.
  revert g; induction l as [|i l IH]; intros g.
  - cbn. rewrite set_snapshot_same. reflexivity.
  - cbn [forM]. unfold bind at 1. unfold bind at 1, emit at 1, modify at 1.
    rewrite IH. reflexivity.
Qed.

Lemma callbackSnapshot_run (mem writeSize : Z) (g : Globals) :
  callbackSnapshot pin mem writeSize g
  = if analysisTrigger g && negb (isLocked (snapshot g))
    then (EvLockClient :: snapshot_events pin (snapshot_addresses mem writeSize)
            ++ [EvUnlockClient],
          Ret (tt, set_snapshot
                     (snapshot_saved pin (snapshot_addresses mem writeSize) (snapshot g)) g))
    else ([], Ret (tt, g)).
Proof.
  unfold callbackSnapshot. unfold bind at 1, get at 1.
  destruct (analysisTrigger g); cbn [negb andb]; [| reflexivity].
  destruct (isLocked (snapshot g)); cbn [negb]; [reflexivity |].
  unfold bind at 1. unfold PIN_LockClient, emit at 1.
  unfold bind at 1. rewrite callbackSnapshot_loop.
  reflexivity.
Qed.

End SnapshotCapture.

(** C8 (snapshot capture): for a write of [writeSize] bytes at [mem],
    [callbackSnapshot] calls [addModification] with the byte now in memory
    for each of the addresses mem, mem+1, ..., mem+writeSize-1 (computed in
    [triton::__uint]) exactly when the trigger is on and the snapshot is
    unlocked; otherwise it does nothing.  It never looks at the thread id.
    After the calls every address of the write is recorded, with the byte
    now in memory unless an earlier byte was already saved for it. *)
Theorem C8_callbackSnapshot_records_write (pin : Pin) (mem writeSize : Z) (g : Globals) :
  callbackSnapshot pin mem writeSize g
  = (if analysisTrigger g && negb (isLocked (snapshot g))
     then (EvLockClient :: snapshot_events pin (snapshot_addresses mem writeSize)
             ++ [EvUnlockClient],
           Ret (tt, set_snapshot
                      (snapshot_saved pin (snapshot_addresses mem writeSize) (snapshot g)) g))
     else ([], Ret (tt, g)))
  /\ (0 <= mem -> mem + writeSize <= 2 ^ uint_bits ->
      snapshot_addresses mem writeSize = seqZ mem writeSize)
  /\ (forall t : THREADID,
        trace_of (callbackSnapshot pin mem writeSize (set_targetThreadId t g))
        = trace_of (callbackSnapshot pin mem writeSize g))
  /\ (isLocked (snapshot g) = false ->
      forall a, a ∈ snapshot_addresses mem writeSize ->
        snap_memory (snapshot_saved pin (snapshot_addresses mem writeSize) (snapshot g)) !! a
        = Some (default (memoryByte pin a) (snap_memory (snapshot g) !! a))).
Proof.
  split; [apply callbackSnapshot_run |]. split; [| split].
  - intros Hlo Hhi. unfold snapshot_addresses.
    replace (seqZ mem writeSize) with (Z.add mem <$> seqZ 0 writeSize)
      by (rewrite fmap_add_seqZ; f_equal; lia).
    change (map (fun i => wrap_uint (mem + i)) (seqZ 0 writeSize))
      with ((fun i => wrap_uint (mem + i)) <$> seqZ 0 writeSize).
    apply list_fmap_ext. intros k i Hi.
    apply list_elem_of_lookup_2, elem_of_seqZ in Hi.
    unfold wrap_uint. apply Z.mod_small. lia.
  - intros t. rewrite !callbackSnapshot_run. cbn.
    destruct (analysisTrigger g && negb (isLocked (snapshot g))); reflexivity.
  - intros Hl a Ha. apply snapshot_saved_lookup; assumption.
Qed.

Lemma C8_witness :
  callbackSnapshot sample_pin 4096 3 running_with_saved_byte
  = ([EvLockClient; EvAddModification 4096 0; EvAddModification 4097 0;
      EvAddModification 4098 0; EvUnlockClient],
     Ret (tt, set_snapshot
                (mkSnapshot false false {[4096 := 0; 4097 := 65; 4098 := 0]})
                running_globals)).
Proof.
  rewrite (proj1 (C8_callbackSnapshot_records_write sample_pin 4096 3
                    running_with_saved_byte)).
  vm_compute. reflexivity.
Defined.

(** ** Image loading *)

Section ImageLoad.

Variable cb : Callbacks.

(** The routine loops only ask the DBI engine for insertions. *)
Lemma forM_rtn_insert (img : IMG) (ipoint : IPOINT) (f : PyObject -> AFUN)
    (l : list (string * PyObject)) (g : Globals) :
  exists tr,
    forM l (fun it =>
      when (RTN_FindByName img (fst it))
        (emit (EvRtnInsertCall img (fst it) ipoint (f (snd it))))) g
    = (tr, Ret (tt, g))
    /\ List.filter is_start_insert tr = [].
Proof.
  induction l as [|it l [tr [IH Hf]]].
  - exists []. split; reflexivity.
  - cbn [forM]. unfold bind at 1, when at 1.
    destruct (RTN_FindByName img (fst it)).
    + unfold emit at 1. rewrite IH. eexists. split; [reflexivity |]. exact Hf.
    + unfold ret at 1. rewrite IH. eexists. split; [reflexivity |]. exact Hf.
Qed.

(** The globals handed to the image-load hook by the first image event
    after a from-entry-point request. *)
Lemma callbackImageLoad_run (img : IMG) (g : Globals) :
  callbackImageLoad cb img g
  = match imageLoad cb (IMG_Name img) (IMG_LowAddress img)
            (wrap_uint (wrap_uint (IMG_HighAddress img + 1) - IMG_LowAddress img)) g with
    | Some g' =>
        ([EvLockClient;
          EvImageLoad (IMG_Name img) (IMG_LowAddress img)
            (wrap_uint (wrap_uint (IMG_HighAddress img + 1) - IMG_LowAddress img));
          EvUnlockClient], Ret (tt, g'))
    | None =>
        ([EvLockClient;
          EvImageLoad (IMG_Name img) (IMG_LowAddress img)
            (wrap_uint (wrap_uint (IMG_HighAddress img + 1) - IMG_LowAddress img))],
         Diverted)
    end.
Proof.
  unfold callbackImageLoad, PIN_LockClient, PIN_UnlockClient, bind, call, emit.
  destruct (imageLoad cb _ _ _ g); reflexivity.
Qed.

(** One image event: what it inserts and what it hands to the hook. *)
Lemma IMG_Instrumentation_run (img : IMG) (g : Globals) :
  let g0 :=
    if startAnalysisFromEntry g
    then set_startAnalysisFromAddr ({[IMG_Entry img]} ∪ startAnalysisFromAddr g)
           (set_startAnalysisFromEntry false g)
    else g in
  exists tr,
    List.filter is_start_insert tr
    = (if startAnalysisFromEntry g then [EvInsertStartAddr (IMG_Entry img)] else [])
    /\ IMG_Instrumentation cb img g
       = if IMG_Valid img
         then (tr ++ fst (callbackImageLoad cb img g0), snd (callbackImageLoad cb img g0))
         else (tr, Ret (tt, g0)).
Proof.
  intros g0.
  assert (Hhead : exists tr1,
    when (startAnalysisFromEntry g)
      (bind (modify (set_startAnalysisFromEntry false)) (fun _ =>
       bind (emit (EvInsertStartAddr (IMG_Entry img))) (fun _ =>
       modify (fun g => set_startAnalysisFromAddr
                          ({[IMG_Entry img]} ∪ startAnalysisFromAddr g) g)))) g
    = (tr1, Ret (tt, g0))
    /\ List.filter is_start_insert tr1
       = (if startAnalysisFromEntry g then [EvInsertStartAddr (IMG_Entry img)] else [])).
  { subst g0. unfold bind, get, when, modify, emit, ret.
    destruct (startAnalysisFromEntry g); cbn; eexists; split; reflexivity. }
  destruct Hhead as (tr1 & Hhead & Hf1).
  assert (Hsym : exists tr2,
    match startAnalysisFromSymbol g0 with
    | Some sym =>
        when (RTN_FindByName img sym)
          (bind (emit (EvRtnInsertCall img sym IPOINT_BEFORE (A_toggleWrapper true))) (fun _ =>
           emit (EvRtnInsertCall img sym IPOINT_AFTER (A_toggleWrapper false))))
    | None => ret tt
    end g0 = (tr2, Ret (tt, g0))
    /\ List.filter is_start_insert tr2 = []).
  { destruct (startAnalysisFromSymbol g0) as [sym|]; [| eexists; split; reflexivity].
    unfold when. destruct (RTN_FindByName img sym); eexists; split; reflexivity. }
  destruct Hsym as (tr2 & Hsym & Hf2).
  destruct (forM_rtn_insert img IPOINT_BEFORE A_callbackRoutineEntry
              (options_callbackRoutineEntry g0) g0) as (tr3 & He & Hf3).
  destruct (forM_rtn_insert img IPOINT_AFTER A_callbackRoutineExit
              (options_callbackRoutineExit g0) g0) as (tr4 & Hx & Hf4).
  exists (tr1 ++ tr2 ++ tr3 ++ tr4). split.
  - rewrite !List.filter_app, Hf1, Hf2, Hf3, Hf4, !app_nil_r. reflexivity.
  - unfold IMG_Instrumentation.
    unfold bind at 1, get at 1. cbv beta iota. unfold bind at 1. rewrite Hhead.
    unfold bind at 1, get at 1. cbv beta iota. unfold bind at 1. rewrite Hsym.
    unfold bind at 1, get at 1. cbv beta iota. unfold bind at 1. rewrite He.
    unfold bind at 1, get at 1. cbv beta iota. unfold bind at 1. rewrite Hx.
    unfold when. destruct (IMG_Valid img).
    + destruct (callbackImageLoad cb img g0) as [t o]. cbn.
      rewrite <- !app_assoc. reflexivity.
    + unfold ret. cbn. rewrite !app_nil_r. reflexivity.
Qed.

Hypothesis Hhook : hook_keeps_entry_cleared cb.

(** Once the request is cleared, image events insert nothing and leave it
    cleared. *)
Lemma IMG_Instrumentation_cleared (imgs : list IMG) (g : Globals) :
  startAnalysisFromEntry g = false ->
  List.filter is_start_insert (trace_of (forM imgs (IMG_Instrumentation cb) g)) = []
  /\ (forall g', outcome_of (forM imgs (IMG_Instrumentation cb) g) = Ret (tt, g') ->
        startAnalysisFromEntry g' = false).
Proof.
  revert g; induction imgs as [|img imgs IH]; intros g Hg.
  - split; [reflexivity |]. cbn. intros g' [= <-]. exact Hg.
  - destruct (IMG_Instrumentation_run img g) as (tr & Hf & Hrun).
    rewrite Hg in Hf, Hrun. cbn zeta in Hrun.
    cbn [forM]. unfold bind. rewrite Hrun.
    destruct (IMG_Valid img).
    + rewrite callbackImageLoad_run.
      destruct (imageLoad cb _ _ _ g) as [g1|] eqn:Hl; cbn [fst snd].
      * specialize (IH g1 (Hhook _ _ _ _ _ Hl Hg)) as [IHf IHo].
        unfold trace_of, outcome_of in *.
        destruct (forM imgs (IMG_Instrumentation cb) g1) as [t o]. cbn in *.
        rewrite !List.filter_app, Hf, IHf. split; [reflexivity | exact IHo].
      * unfold trace_of, outcome_of. cbn. rewrite List.filter_app, Hf.
        split; [reflexivity | discriminate].
    + specialize (IH g Hg) as [IHf IHo].
      unfold trace_of, outcome_of in *.
      destruct (forM imgs (IMG_Instrumentation cb) g) as [t o]. cbn in *.
      rewrite List.filter_app, Hf, IHf. split; [reflexivity | exact IHo].
Qed.

End ImageLoad.

(** C7 (from-entry-point): with the from-entry-point request set, the first
    image event inserts that image's entry address into the from-address
    set and clears the request before anything else runs; over the whole
    sequence of image events this is the only insertion, and the request is
    still cleared at the end.  (The image-load hook is taken not to ask for
    a start from the entry point again.) *)
Theorem C7_entry_point_registered_once (cb : Callbacks) (img : IMG) (imgs : list IMG)
    (g : Globals) :
  hook_keeps_entry_cleared cb ->
  startAnalysisFromEntry g = true ->
  List.filter is_start_insert (trace_of (forM (img :: imgs) (IMG_Instrumentation cb) g))
  = [EvInsertStartAddr (IMG_Entry img)]
  /\ (forall g',
        outcome_of (forM (img :: imgs) (IMG_Instrumentation cb) g) = Ret (tt, g') ->
        startAnalysisFromEntry g' = false)
  /\ (exists tr,
        IMG_Instrumentation cb img g
        = if IMG_Valid img
          then (tr ++ fst (callbackImageLoad cb img
                             (set_startAnalysisFromAddr
                                ({[IMG_Entry img]} ∪ startAnalysisFromAddr g)
                                (set_startAnalysisFromEntry false g))),
                snd (callbackImageLoad cb img
                       (set_startAnalysisFromAddr
                          ({[IMG_Entry img]} ∪ startAnalysisFromAddr g)
                          (set_startAnalysisFromEntry false g))))
          else (tr, Ret (tt, set_startAnalysisFromAddr
                               ({[IMG_Entry img]} ∪ startAnalysisFromAddr g)
                               (set_startAnalysisFromEntry false g)))).
Proof.
  intros Hhook Hg.
  destruct (IMG_Instrumentation_run cb img g) as (tr & Hf & Hrun).
  rewrite Hg in Hf, Hrun. cbn zeta in Hrun.
  set (g0 := set_startAnalysisFromAddr ({[IMG_Entry img]} ∪ startAnalysisFromAddr g)
               (set_startAnalysisFromEntry false g)) in *.
  assert (Hg0 : startAnalysisFromEntry g0 = false) by reflexivity.
  assert (Hmain :
    List.filter is_start_insert (trace_of (forM (img :: imgs) (IMG_Instrumentation cb) g))
    = [EvInsertStartAddr (IMG_Entry img)]
    /\ (forall g',
          outcome_of (forM (img :: imgs) (IMG_Instrumentation cb) g) = Ret (tt, g') ->
          startAnalysisFromEntry g' = false)).
  { cbn [forM]. unfold bind. rewrite Hrun.
    destruct (IMG_Valid img).
    - rewrite callbackImageLoad_run.
      destruct (imageLoad cb _ _ _ g0) as [g1|] eqn:Hl; cbn [fst snd].
      + destruct (IMG_Instrumentation_cleared cb Hhook imgs g1 (Hhook _ _ _ _ _ Hl Hg0))
          as [IHf IHo].
        unfold trace_of, outcome_of in *.
        destruct (forM imgs (IMG_Instrumentation cb) g1) as [t o]. cbn in *.
        rewrite !List.filter_app, Hf, IHf. split; [reflexivity | exact IHo].
      + unfold trace_of, outcome_of. cbn. rewrite List.filter_app, Hf.
        split; [reflexivity | discriminate].
    - destruct (IMG_Instrumentation_cleared cb Hhook imgs g0 Hg0) as [IHf IHo].
      unfold trace_of, outcome_of in *.
      destruct (forM imgs (IMG_Instrumentation cb) g0) as [t o]. cbn in *.
      rewrite List.filter_app, Hf, IHf. split; [reflexivity | exact IHo]. }
  destruct Hmain as [H1 H2]. split; [exact H1 |]. split; [exact H2 |].
  exists tr. exact Hrun.
Qed.

Lemma idle_hook_keeps_entry_cleared : hook_keeps_entry_cleared idle_callbacks.
Proof. intros path base size g0 g1 [= <-] H. exact H. Qed.

Lemma C7_witness :
  List.filter is_start_insert
    (trace_of (forM [sample_img "/bin/ls" 16384; sample_img "/lib/libc.so.6" 20480]
                 (IMG_Instrumentation idle_callbacks) start_from_entry))
  = [EvInsertStartAddr 16384]
  /\ outcome_of (forM [sample_img "/bin/ls" 16384; sample_img "/lib/libc.so.6" 20480]
                   (IMG_Instrumentation idle_callbacks) start_from_entry)
     = Ret (tt, set_startAnalysisFromAddr {[16384]} initial_globals).
Proof.
  split.
  - apply (proj1 (C7_entry_point_registered_once idle_callbacks
                    (sample_img "/bin/ls" 16384) [sample_img "/lib/libc.so.6" 20480]
                    start_from_entry idle_hook_keeps_entry_cleared eq_refl)).
  - vm_compute. reflexivity.
Defined.

(** * Further properties of main.cpp *)

(** ** The range selector, continued *)

Section RangeSelectorMore.

Variable pin : Pin.

Lemma checkUnlockAnalysis_startMatches (address : Z) (g : Globals) :
  checkUnlockAnalysis pin address g
  = if negb (targetThreadId g =? -1) then ([], Ret (false, g))
    else if startMatches pin address g
    then ([EvLockClient; EvUnlockClient],
          Ret (true, set_analysisTrigger true (set_targetThreadId (PIN_ThreadId pin) g)))
    else ([], Ret (false, g)).
Proof.
  unfold checkUnlockAnalysis, startMatches, toggleWrapper, PIN_LockClient,
    PIN_UnlockClient, bind, get, ret, modify, emit.
  destruct (negb (targetThreadId g =? -1)); cbn; [reflexivity |].
  destruct (startAnalysisFromSymbol g) as [sym|].
  - destruct (String.eqb _ sym); reflexivity.
  - repeat case_bool_decide; reflexivity.
Qed.

(** An instruction turn with the target thread set: the unlock check is
    silent, and the globals stay as they are. *)
Lemma TRACE_Instrumentation_ins_latched (ins : INS) (g : Globals) :
  targetThreadId g <> -1 ->
  exists calls,
    TRACE_Instrumentation_ins pin ins g = (calls, Ret (tt, g))
    /\ List.filter is_lock calls = [].
Proof.
  intros Ht.
  unfold TRACE_Instrumentation_ins. unfold bind at 1.
  rewrite (checkUnlockAnalysis_closed pin _ g Ht).
  unfold bind, get, emit, when, ret.
  destruct (negb (analysisTrigger g)); [eexists; split; reflexivity |].
  destruct (imageFiltered pin (INS_Address ins) g); [eexists; split; reflexivity |].
  destruct (INS_IsMemoryRead ins), (INS_HasMemoryRead2 ins), (INS_IsMemoryWrite ins),
    (eqb (INS_IsSyscall ins) false),
    ((1 <? INS_OperandCount ins) && INS_MemoryOperandIsWritten0 ins);
    eexists; split; reflexivity.
Qed.

(** An instruction turn with the target thread unset: either no start
    condition matches and no lock is taken, or the analysis is unlocked with
    one lock acquisition. *)
Lemma TRACE_Instrumentation_ins_unset (ins : INS) (g : Globals) :
  targetThreadId g = -1 ->
  exists calls g1,
    TRACE_Instrumentation_ins pin ins g = (calls, Ret (tt, g1))
    /\ ((startMatches pin (INS_Address ins) g = false
         /\ g1 = g /\ List.filter is_lock calls = [])
        \/ (startMatches pin (INS_Address ins) g = true
            /\ g1 = set_analysisTrigger true (set_targetThreadId (PIN_ThreadId pin) g)
            /\ List.filter is_lock calls = [EvLockClient])).
Proof.
  intros Ht.
  unfold TRACE_Instrumentation_ins. unfold bind at 1.
  rewrite checkUnlockAnalysis_startMatches, Ht.
  change (negb (-1 =? -1)) with false. cbv iota.
  destruct (startMatches pin (INS_Address ins) g) eqn:Em.
  - unfold bind, get, emit, when, ret. cbn [analysisTrigger set_analysisTrigger negb].
    change (imageFiltered pin (INS_Address ins)
              (set_analysisTrigger true (set_targetThreadId (PIN_ThreadId pin) g)))
      with (imageFiltered pin (INS_Address ins) g).
    destruct (imageFiltered pin (INS_Address ins) g);
      [eexists _, _; split; [reflexivity |]; right; repeat split; reflexivity |].
    destruct (INS_IsMemoryRead ins), (INS_HasMemoryRead2 ins), (INS_IsMemoryWrite ins),
      (eqb (INS_IsSyscall ins) false),
      ((1 <? INS_OperandCount ins) && INS_MemoryOperandIsWritten0 ins);
      eexists _, _; (split; [reflexivity |]); right; repeat split; reflexivity.
  - unfold bind, get, emit, when, ret.
    destruct (negb (analysisTrigger g));
      [eexists _, _; split; [reflexivity |]; left; repeat split; reflexivity |].
    destruct (imageFiltered pin (INS_Address ins) g);
      [eexists _, _; split; [reflexivity |]; left; repeat split; reflexivity |].
    destruct (INS_IsMemoryRead ins), (INS_HasMemoryRead2 ins), (INS_IsMemoryWrite ins),
      (eqb (INS_IsSyscall ins) false),
      ((1 <? INS_OperandCount ins) && INS_MemoryOperandIsWritten0 ins);
      eexists _, _; (split; [reflexivity |]); left; repeat split; reflexivity.
Qed.

Lemma forM_ins_latched (bbl : BBL) (g : Globals) :
  targetThreadId g <> -1 ->
  exists tr,
    forM bbl (TRACE_Instrumentation_ins pin) g = (tr, Ret (tt, g))
    /\ List.filter is_lock tr = [].
Proof.
  intros Ht. induction bbl as [|ins bbl (tr & IH & Hf)].
  - exists []. split; reflexivity.
  - destruct (TRACE_Instrumentation_ins_latched ins g Ht) as (calls & Hrun & Hc).
    exists (calls ++ tr). cbn [forM]. unfold bind. rewrite Hrun, IH.
    split; [reflexivity |]. rewrite List.filter_app, Hc, Hf. reflexivity.
Qed.

Lemma TRACE_Instrumentation_latched (trace : TRACE) (g : Globals) :
  targetThreadId g <> -1 ->
  exists tr,
    TRACE_Instrumentation pin trace g = (tr, Ret (tt, g))
    /\ List.filter is_lock tr = [].
Proof.
  intros Ht. unfold TRACE_Instrumentation.
  induction trace as [|bbl trace (tr & IH & Hf)].
  - exists []. split; reflexivity.
  - destruct (forM_ins_latched bbl g Ht) as (tr1 & Hrun & Hc).
    exists (tr1 ++ tr). cbn [forM]. unfold bind. rewrite Hrun, IH.
    split; [reflexivity |]. rewrite List.filter_app, Hc, Hf. reflexivity.
Qed.

Hypothesis valid_thread : PIN_ThreadId pin <> -1.

Lemma forM_ins_locks (bbl : BBL) (g : Globals) :
  exists tr g1,
    forM bbl (TRACE_Instrumentation_ins pin) g = (tr, Ret (tt, g1))
    /\ (length (List.filter is_lock tr) <= 1)%nat
    /\ (targetThreadId g <> -1 -> g1 = g /\ List.filter is_lock tr = [])
    /\ (targetThreadId g1 = -1 -> g1 = g /\ List.filter is_lock tr = []).
Proof.
  revert g. induction bbl as [|ins bbl IH]; intros g.
  - exists [], g. cbn. repeat split; auto.
  - destruct (Z.eq_dec (targetThreadId g) (-1)) as [Hu | Hs].
    + destruct (TRACE_Instrumentation_ins_unset ins g Hu)
        as (calls & g1 & Hrun & [(Hm & -> & Hc) | (Hm & -> & Hc)]).
      * destruct (IH g) as (tr & g2 & Hrest & Hlen & Hset & Hunset).
        exists (calls ++ tr), g2. cbn [forM]. unfold bind. rewrite Hrun, Hrest.
        rewrite List.filter_app, Hc. cbn [app].
        repeat split; auto; try (apply Hset; assumption); apply Hunset; assumption.
      * set (g1 := set_analysisTrigger true (set_targetThreadId (PIN_ThreadId pin) g)) in *.
        assert (Hg1 : targetThreadId g1 <> -1) by exact valid_thread.
        destruct (forM_ins_latched bbl g1 Hg1) as (tr & Hrest & Hf).
        exists (calls ++ tr), g1. cbn [forM]. unfold bind. rewrite Hrun, Hrest.
        rewrite List.filter_app, Hc, Hf. cbn.
        repeat split; auto; congruence.
    + destruct (forM_ins_latched (ins :: bbl) g Hs) as (tr & Hrun & Hf).
      exists tr, g. rewrite Hrun, Hf. cbn. repeat split; auto.
Qed.

Lemma TRACE_Instrumentation_locks (trace : TRACE) (g : Globals) :
  exists tr g1,
    TRACE_Instrumentation pin trace g = (tr, Ret (tt, g1))
    /\ (length (List.filter is_lock tr) <= 1)%nat.
Proof.
  unfold TRACE_Instrumentation. revert g.
  induction trace as [|bbl trace IH]; intros g.
  - exists [], g. cbn. split; [reflexivity | lia].
  - destruct (forM_ins_locks bbl g) as (tr1 & g1 & Hrun & Hlen & Hset & Hunset).
    destruct (Z.eq_dec (targetThreadId g1) (-1)) as [Hu | Hs].
    + destruct (Hunset Hu) as [-> Hf1].
      destruct (IH g) as (tr & g2 & Hrest & Hl).
      exists (tr1 ++ tr), g2. cbn [forM]. unfold bind. rewrite Hrun, Hrest.
      rewrite List.filter_app, Hf1. split; [reflexivity | exact Hl].
    + destruct (TRACE_Instrumentation_latched trace g1 Hs) as (tr & Hrest & Hf).
      unfold TRACE_Instrumentation in Hrest.
      exists (tr1 ++ tr), g1. cbn [forM]. unfold bind. rewrite Hrun, Hrest.
      rewrite List.filter_app, Hf, app_nil_r. split; [reflexivity | exact Hlen].
Qed.

End RangeSelectorMore.

(** X1 (a start symbol shadows the address and offset sets): when a start
    symbol is configured, [checkUnlockAnalysis] never consults the
    from-address and from-offset sets: at an address whose routine name is
    not the symbol it returns false and changes nothing, even if the address
    is in the from-address set. *)
Theorem X1_start_symbol_shadows_address_sets (pin : Pin) (address : Z) (g : Globals)
    (sym : string) :
  startAnalysisFromSymbol g = Some sym ->
  RTN_FindNameByAddress pin address <> sym ->
  checkUnlockAnalysis pin address g = ([], Ret (false, g)).
Proof.
  intros Hs Hne. rewrite checkUnlockAnalysis_startMatches.
  unfold startMatches. rewrite Hs.
  apply String.eqb_neq in Hne. rewrite Hne.
  destruct (negb (targetThreadId g =? -1)); reflexivity.
Qed.

Lemma X1_witness :
  16384 ∈ startAnalysisFromAddr start_at_symbol
  /\ checkUnlockAnalysis sample_pin 16384 start_at_symbol
     = ([], Ret (false, start_at_symbol)).
Proof.
  split; [simpl; set_solver |].
  apply (X1_start_symbol_shadows_address_sets sample_pin 16384 start_at_symbol
           "target"%string).
  - reflexivity.
  - simpl. discriminate.
Defined.

(** X2 (the unlock latches on the calling thread): when a thread with a valid
    id gets true from [checkUnlockAnalysis], the lock test of the callbacks
    passes for that thread and fails for every other thread, and every
    further call to [checkUnlockAnalysis] returns false and changes
    nothing. *)
Theorem X2_unlock_latches_on_calling_thread (pin : Pin) (address : Z)
    (g g' : Globals) (tr : list Event) :
  PIN_ThreadId pin <> -1 ->
  checkUnlockAnalysis pin address g = (tr, Ret (true, g')) ->
  analysisLocked (PIN_ThreadId pin) g' = false
  /\ (forall t, t <> PIN_ThreadId pin -> analysisLocked t g' = true)
  /\ (forall address', checkUnlockAnalysis pin address' g' = ([], Ret (false, g'))).
Proof.
  intros Hv Hc. rewrite checkUnlockAnalysis_startMatches in Hc.
  destruct (negb (targetThreadId g =? -1)); [discriminate Hc |].
  destruct (startMatches pin address g); [| discriminate Hc].
  injection Hc as <- <-. split; [| split].
  - unfold analysisLocked. cbn. rewrite Z.eqb_refl. reflexivity.
  - intros t Ht. unfold analysisLocked. cbn.
    apply Z.eqb_neq in Ht. rewrite Ht. reflexivity.
  - intros address'. apply checkUnlockAnalysis_closed. exact Hv.
Qed.

Lemma X2_witness :
  analysisLocked 0 (set_analysisTrigger true (set_targetThreadId 0 start_at_0x4000)) = false
  /\ (forall t, t <> 0 ->
        analysisLocked t (set_analysisTrigger true (set_targetThreadId 0 start_at_0x4000))
        = true)
  /\ (forall address',
        checkUnlockAnalysis sample_pin address'
          (set_analysisTrigger true (set_targetThreadId 0 start_at_0x4000))
        = ([], Ret (false, set_analysisTrigger true (set_targetThreadId 0 start_at_0x4000)))).
Proof.
  apply (X2_unlock_latches_on_calling_thread sample_pin 16384 start_at_0x4000
           (set_analysisTrigger true (set_targetThreadId 0 start_at_0x4000))
           [EvLockClient; EvUnlockClient]).
  - simpl. lia.
  - vm_compute. reflexivity.
Defined.

Lemma forM_silent {A : Type} (body : A -> M unit) (l : list A) (g : Globals) :
  (forall x, In x l -> body x g = ([], Ret (tt, g))) ->
  forM l body g = ([], Ret (tt, g)).
Proof.
  induction l as [|x l IH]; intros H; [reflexivity |].
  cbn [forM]. unfold bind. rewrite (H x) by (left; reflexivity).
  rewrite IH by (intros y Hy; apply H; right; exact Hy). reflexivity.
Qed.

(** X3 (nothing happens before a start condition is met): with the trigger
    off and the target thread unset, a trace none of whose instruction
    addresses meets the start condition is left uninstrumented:
    [TRACE_Instrumentation] asks the DBI engine for nothing and changes no
    global. *)
Theorem X3_no_instrumentation_before_start (pin : Pin) (trace : TRACE) (g : Globals) :
  analysisTrigger g = false ->
  targetThreadId g = -1 ->
  (forall ins, In ins (concat trace) -> startMatches pin (INS_Address ins) g = false) ->
  TRACE_Instrumentation pin trace g = ([], Ret (tt, g)).
Proof.
  intros Htr Hth Hno.
  assert (Hstep : forall ins, In ins (concat trace) ->
            TRACE_Instrumentation_ins pin ins g = ([], Ret (tt, g))).
  { intros ins Hin. unfold TRACE_Instrumentation_ins. unfold bind at 1.
    rewrite checkUnlockAnalysis_startMatches, Hth, (Hno ins Hin).
    change (negb (-1 =? -1)) with false. cbv iota.
    unfold bind, get. rewrite Htr. reflexivity. }
  unfold TRACE_Instrumentation. apply forM_silent. intros bbl Hb.
  apply forM_silent. intros ins Hi. apply Hstep.
  apply in_concat. exists bbl. split; assumption.
Qed.

Lemma X3_witness :
  TRACE_Instrumentation sample_pin [[plain_ins 4096; plain_ins 4100]; [plain_ins 8192]]
    start_at_0x4000
  = ([], Ret (tt, start_at_0x4000)).
Proof.
  apply (X3_no_instrumentation_before_start sample_pin
           [[plain_ins 4096; plain_ins 4100]; [plain_ins 8192]] start_at_0x4000).
  - reflexivity.
  - reflexivity.
  - intros ins [<- | [<- | [<- | []]]]; vm_compute; reflexivity.
Defined.

(** X4 (one unlock per trace, none once latched): for a calling thread with
    a valid id, [TRACE_Instrumentation] takes the lock (to flip the trigger)
    at most once over a whole trace; and when the target thread is already
    set it never takes it and returns the globals unchanged. *)
Theorem X4_trace_unlocks_at_most_once (pin : Pin) (trace : TRACE) (g : Globals) :
  PIN_ThreadId pin <> -1 ->
  (length (List.filter is_lock (trace_of (TRACE_Instrumentation pin trace g))) <= 1)%nat
  /\ (targetThreadId g <> -1 ->
      outcome_of (TRACE_Instrumentation pin trace g) = Ret (tt, g)
      /\ List.filter is_lock (trace_of (TRACE_Instrumentation pin trace g)) = []).
Proof.
  intros Hv. split.
  - destruct (TRACE_Instrumentation_locks pin Hv trace g) as (tr & g1 & -> & Hl).
    exact Hl.
  - intros Ht. destruct (TRACE_Instrumentation_latched pin trace g Ht) as (tr & -> & Hf).
    split; [reflexivity | exact Hf].
Qed.

Lemma X4_witness :
  (length (List.filter is_lock
             (trace_of (TRACE_Instrumentation sample_pin
                          [[plain_ins 16384; plain_ins 16384]] start_at_0x4000))) <= 1)%nat
  /\ (targetThreadId start_at_0x4000 <> -1 ->
      outcome_of (TRACE_Instrumentation sample_pin [[plain_ins 16384; plain_ins 16384]]
                    start_at_0x4000)
      = Ret (tt, start_at_0x4000)
      /\ List.filter is_lock
           (trace_of (TRACE_Instrumentation sample_pin
                        [[plain_ins 16384; plain_ins 16384]] start_at_0x4000)) = []).
Proof.
  apply (X4_trace_unlocks_at_most_once sample_pin [[plain_ins 16384; plain_ins 16384]]
           start_at_0x4000).
  simpl. lia.
Defined.

(** ** The analysis calls of an instrumented instruction *)

(** X5 (layout of the inserted calls): an instruction that is instrumented
    (analysis unlocked, image not filtered) gets a fresh Instruction, then
    its memory saves in the order read, second read, write, then
    [callbackBefore], and after it at most two more calls: [callbackAfter],
    inserted exactly when the instruction is not a syscall, at the
    fall-through point when there is one and on the taken branch otherwise;
    and [callbackSnapshot], inserted exactly when the instruction has more
    than one operand and writes its memory operand 0, with the size of the
    write.  The globals are not changed. *)
Theorem X5_analysis_calls_layout (pin : Pin) (ins : INS) (g : Globals) :
  analysisTrigger g = true ->
  targetThreadId g <> -1 ->
  imageFiltered pin (INS_Address ins) g = false ->
  exists rest,
    TRACE_Instrumentation_ins pin ins g
    = (EvNewInstruction ins :: memory_saves ins
         ++ EvInsInsertCall ins IPOINT_BEFORE A_callbackBefore :: rest,
       Ret (tt, g))
    /\ (forall p,
          In (EvInsInsertCall ins p A_callbackAfter) rest
          <-> INS_IsSyscall ins = false
              /\ p = if INS_HasFallThrough ins then IPOINT_AFTER else IPOINT_TAKEN_BRANCH)
    /\ (forall n,
          In (EvInsInsertCall ins IPOINT_BEFORE (A_callbackSnapshot n)) rest
          <-> 1 < INS_OperandCount ins
              /\ INS_MemoryOperandIsWritten0 ins = true
              /\ n = INS_MemoryWriteSize ins)
    /\ (length rest <= 2)%nat.
Proof.
  intros Htr Hth Hf.
  unfold TRACE_Instrumentation_ins. unfold bind at 1.
  rewrite (checkUnlockAnalysis_closed pin _ g Hth).
  unfold bind at 1, get at 1. cbv beta iota. rewrite Htr, Hf. cbn [negb].
  unfold memory_saves, bind, emit, when, ret.
  destruct (INS_IsMemoryRead ins), (INS_HasMemoryRead2 ins), (INS_IsMemoryWrite ins),
    (INS_IsSyscall ins), (INS_HasFallThrough ins),
    (Z.ltb_spec 1 (INS_OperandCount ins)), (INS_MemoryOperandIsWritten0 ins);
    cbn; eexists; (split; [reflexivity |]); cbn;
    (split; [intros p | split; [intros n | lia]]);
    intuition (try discriminate; try congruence; try lia).
Qed.

Lemma X5_witness :
  exists rest,
    TRACE_Instrumentation_ins sample_pin (branch_ins 16384) running_globals
    = (EvNewInstruction (branch_ins 16384) :: memory_saves (branch_ins 16384)
         ++ EvInsInsertCall (branch_ins 16384) IPOINT_BEFORE A_callbackBefore :: rest,
       Ret (tt, running_globals))
    /\ (forall p,
          In (EvInsInsertCall (branch_ins 16384) p A_callbackAfter) rest
          <-> INS_IsSyscall (branch_ins 16384) = false
              /\ p = if INS_HasFallThrough (branch_ins 16384)
                     then IPOINT_AFTER else IPOINT_TAKEN_BRANCH)
    /\ (forall n,
          In (EvInsInsertCall (branch_ins 16384) IPOINT_BEFORE (A_callbackSnapshot n)) rest
          <-> 1 < INS_OperandCount (branch_ins 16384)
              /\ INS_MemoryOperandIsWritten0 (branch_ins 16384) = true
              /\ n = INS_MemoryWriteSize (branch_ins 16384))
    /\ (length rest <= 2)%nat.
Proof.
  apply (X5_analysis_calls_layout sample_pin (branch_ins 16384) running_globals).
  - reflexivity.
  - simpl. lia.
  - reflexivity.
Defined.

(** ** The image filter, continued *)

Lemma occurs_in_empty_needle (hay : string) : occurs_in "" hay.
Proof. exists ""%string, hay. reflexivity. Qed.

Lemma occurs_in_empty_hay (needle : string) : occurs_in needle "" <-> needle = ""%string.
Proof.
  split.
  - intros [pre [post H]]. destruct pre; [| discriminate H].
    destruct needle; [reflexivity | discriminate H].
  - intros ->. apply occurs_in_empty_needle.
Qed.

(** X6 (empty strings in the image filter): an empty string on the blacklist
    blacklists every address, and an empty string on the whitelist
    whitelists every address, because [strstr] finds the empty string
    everywhere.  An address whose image name is empty (no image known) is
    blacklisted only by an empty blacklist entry, and is whitelisted only
    when the whitelist is empty or has an empty entry. *)
Theorem X6_filter_empty_strings (pin : Pin) (address : Z) (g : Globals) :
  (""%string ∈ imageBlacklist g -> instructionBlacklisted pin address g = true)
  /\ (""%string ∈ imageWhitelist g -> instructionWhitelisted pin address g = true)
  /\ (getImageName pin address = ""%string ->
      (instructionBlacklisted pin address g = true <-> ""%string ∈ imageBlacklist g)
      /\ (instructionWhitelisted pin address g = true
          <-> imageWhitelist g = [] \/ ""%string ∈ imageWhitelist g)).
Proof.
  split; [| split].
  - intros H. apply instructionBlacklisted_spec. exists ""%string.
    split; [exact H | apply occurs_in_empty_needle].
  - intros H. apply instructionWhitelisted_spec. right. exists ""%string.
    split; [exact H | apply occurs_in_empty_needle].
  - intros Hn. rewrite instructionBlacklisted_spec, instructionWhitelisted_spec, Hn.
    split.
    + split.
      * intros [b [Hb Ho]]. apply occurs_in_empty_hay in Ho. subst b. exact Hb.
      * intros H. exists ""%string. split; [exact H | apply occurs_in_empty_needle].
    + split.
      * intros [H | [w [Hw Ho]]]; [left; exact H |].
        apply occurs_in_empty_hay in Ho. subst w. right. exact Hw.
      * intros [H | H]; [left; exact H |].
        right. exists ""%string. split; [exact H | apply occurs_in_empty_needle].
Qed.

(** ** The before-instruction callback, continued *)

(** Finds the part of an explicit trace between the prologue and the three
    closing actions. *)
Ltac cb_middle :=
  lazymatch goal with
  | |- exists mid, ?l = _ /\ _ =>
      exists (firstn (length l - 12) (skipn 9 l));
      split; [reflexivity | cbn; repeat (first [left; reflexivity | right])]
  end.

(** Splits an explicit trace at a reset that is followed by a restore. *)
Ltac cb_split_at_restore :=
  lazymatch goal with
  | |- exists pre post, ?l = _ /\ _ =>
      let rec go pre l :=
        lazymatch l with
        | EvReset _ :: EvRestoreSnapshot _ :: ?r =>
            exists (rev pre), r;
            split; [reflexivity | cbn; repeat (first [left; reflexivity | right])]
        | ?x :: ?l' => go (x :: pre) l'
        end in
      go (@nil Event) l
  end.

(** X7 (how [callbackBefore] ends): a run of [callbackBefore] that returns
    has released the lock as often as it took it; it either stopped at the
    lock test, right after the preProcessing hook, or it built the semantics
    and ended with the postProcessing hook, the untrusting of the operands
    and the release of the lock, in this order.  A run that loses control
    (a hook or an engine call does not return) does so either in the
    preProcessing hook or while it holds the lock. *)
Theorem X7_callbackBefore_epilogue (cb : Callbacks) (rt : Runtime)
    (tritonInst : InstPtr) (addr size : Z) (ctx : CONTEXT) (threadId : THREADID)
    (g : Globals) :
  (forall g',
     outcome_of (callbackBefore cb rt tritonInst addr size ctx threadId g) = Ret (tt, g') ->
     lock_balance (trace_of (callbackBefore cb rt tritonInst addr size ctx threadId g)) = 0
     /\ (trace_of (callbackBefore cb rt tritonInst addr size ctx threadId g)
         = [EvPreProcessing tritonInst threadId]
         \/ exists mid,
              trace_of (callbackBefore cb rt tritonInst addr size ctx threadId g)
              = before_prologue tritonInst addr size ctx threadId ++ mid
                ++ [EvPostProcessing tritonInst threadId; EvSetTrust tritonInst false;
                    EvUnlockClient]
              /\ In (EvBuildSemantics tritonInst) mid))
  /\ (outcome_of (callbackBefore cb rt tritonInst addr size ctx threadId g) = Diverted ->
      trace_of (callbackBefore cb rt tritonInst addr size ctx threadId g)
      = [EvPreProcessing tritonInst threadId]
      \/ lock_balance (trace_of (callbackBefore cb rt tritonInst addr size ctx threadId g))
         = 1)
  /\ (forall code,
        outcome_of (callbackBefore cb rt tritonInst addr size ctx threadId g)
        <> Exited code).
Proof.
  cb_unfold. cbn.
  repeat (cb_step; cbn);
    (split; [intros g' H;
             first [discriminate H
                   | split; [reflexivity | first [left; reflexivity | right; cb_middle]]]
            | split; [intros H;
                      first [discriminate H | left; reflexivity | right; reflexivity]
                     | intros code; discriminate]]).
Qed.

(** X8 (restore inside [callbackBefore]): whenever [callbackBefore] calls
    [restoreSnapshot], the call comes right after a reset of the
    Instruction, and the semantics of the instruction were built before. *)
Theorem X8_callbackBefore_restore_after_reset (cb : Callbacks) (rt : Runtime)
    (tritonInst : InstPtr) (addr size : Z) (ctx : CONTEXT) (threadId : THREADID)
    (g : Globals) :
  In (EvRestoreSnapshot ctx)
     (trace_of (callbackBefore cb rt tritonInst addr size ctx threadId g)) ->
  exists pre post,
    trace_of (callbackBefore cb rt tritonInst addr size ctx threadId g)
    = pre ++ [EvReset tritonInst; EvRestoreSnapshot ctx] ++ post
    /\ In (EvBuildSemantics tritonInst) pre.
Proof.
  cb_unfold. cbn.
  repeat (cb_step; cbn); intros H;
    first [cb_split_at_restore | exfalso; intuition discriminate].
Qed.

Lemma X8_witness :
  exists pre post,
    trace_of (callbackBefore restore_callbacks runtime_spec 7 16384 4 9 0 running_globals)
    = pre ++ [EvReset 7; EvRestoreSnapshot 9] ++ post
    /\ In (EvBuildSemantics 7) pre.
Proof.
  apply (X8_callbackBefore_restore_after_reset restore_callbacks runtime_spec
           7 16384 4 9 0 running_globals).
  cbn. tauto.
Defined.

(** ** The after-instruction callback and the event callbacks *)

(** X9 (override in [callbackAfter]): with the analysis unlocked and the
    after and postProcessing hooks returning, [callbackAfter] resets the
    Instruction and then calls [executeContext] exactly when the override
    flag is set at that point, whether it was queued by a hook of this run
    or was already pending on entry. *)
Theorem X9_callbackAfter_applies_pending_override (cb : Callbacks) (rt : Runtime)
    (tritonInst : InstPtr) (ctx : CONTEXT) (threadId : THREADID) (g g1 g2 : Globals) :
  analysisLocked threadId g = false ->
  after cb tritonInst (set_lastContext ctx g) = Some g1 ->
  postProcessing cb tritonInst threadId g1 = Some g2 ->
  (mustBeExecuted g2 = true ->
   exists post,
     trace_of (callbackAfter cb rt tritonInst ctx threadId g)
     = [EvLockClient; EvAfter tritonInst; EvPostProcessing tritonInst threadId;
        EvReset tritonInst; EvExecuteContext] ++ post)
  /\ (mustBeExecuted g2 = false ->
      ~ In EvExecuteContext (trace_of (callbackAfter cb rt tritonInst ctx threadId g))).
Proof.
  intros Hl Ha Hp. cb_unfold. rewrite Hl. cbn. rewrite Ha. cbn. rewrite Hp. cbn.
  split; intros Hflag; rewrite Hflag; cbn.
  - repeat (cb_step; cbn); eexists; reflexivity.
  - repeat (cb_step; cbn); intros H; intuition discriminate.
Qed.

Lemma X9_witness :
  (mustBeExecuted override_pending_globals = true ->
   exists post,
     trace_of (callbackAfter idle_callbacks runtime_spec 7 9 0 override_pending_globals)
     = [EvLockClient; EvAfter 7; EvPostProcessing 7 0; EvReset 7; EvExecuteContext] ++ post)
  /\ (mustBeExecuted override_pending_globals = false ->
      ~ In EvExecuteContext
          (trace_of (callbackAfter idle_callbacks runtime_spec 7 9 0
                       override_pending_globals))).
Proof.
  apply (X9_callbackAfter_applies_pending_override idle_callbacks runtime_spec 7 9 0
           override_pending_globals (set_lastContext 9 override_pending_globals)
           (set_lastContext 9 override_pending_globals)); reflexivity.
Defined.

Ltac cb_unfold_events :=
  unfold callbackAfter, callbackRoutineEntry, callbackRoutineExit,
    callbackSyscallEntry, callbackSyscallExit, callbackImageLoad, callbackSignals,
    callbackFini, toggleWrapper, PIN_LockClient, PIN_UnlockClient, bind, call, emit,
    modify, get, ret, when, exit, trace_of, outcome_of, mustBeRestored in *.

(** X10 (the lock is released on every way out): each of the after,
    routine, syscall, image-load and signal callbacks that does not lose
    control to a hook or to an engine call has released the lock as often as
    it took it when it returns or exits the process. *)
Theorem X10_event_callbacks_release_lock (cb : Callbacks) (rt : Runtime)
    (tritonInst : InstPtr) (ctx : CONTEXT) (threadId : THREADID) (callback : PyObject)
    (std sig : Z) (img : IMG) (g : Globals) :
  (outcome_of (callbackAfter cb rt tritonInst ctx threadId g) <> Diverted ->
   lock_balance (trace_of (callbackAfter cb rt tritonInst ctx threadId g)) = 0)
  /\ (outcome_of (callbackRoutineEntry cb ctx threadId callback g) <> Diverted ->
      lock_balance (trace_of (callbackRoutineEntry cb ctx threadId callback g)) = 0)
  /\ (outcome_of (callbackRoutineExit cb ctx threadId callback g) <> Diverted ->
      lock_balance (trace_of (callbackRoutineExit cb ctx threadId callback g)) = 0)
  /\ (outcome_of (callbackSyscallEntry cb threadId ctx std g) <> Diverted ->
      lock_balance (trace_of (callbackSyscallEntry cb threadId ctx std g)) = 0)
  /\ (outcome_of (callbackSyscallExit cb threadId ctx std g) <> Diverted ->
      lock_balance (trace_of (callbackSyscallExit cb threadId ctx std g)) = 0)
  /\ (outcome_of (callbackImageLoad cb img g) <> Diverted ->
      lock_balance (trace_of (callbackImageLoad cb img g)) = 0)
  /\ (outcome_of (callbackSignals cb threadId sig ctx g) <> Diverted ->
      lock_balance (trace_of (callbackSignals cb threadId sig ctx g)) = 0).
Proof.
  repeat split; cb_unfold_events; cbn;
    repeat (cb_step; cbn); intros H; first [reflexivity | contradiction H; reflexivity].
Qed.

(** X11 (locked callbacks do nothing): while the trigger is off or the
    calling thread is not the target thread, the after, routine-entry,
    routine-exit, syscall-entry and syscall-exit callbacks invoke no hook,
    take no lock and leave every global, the recorded context included, as
    it was. *)
Theorem X11_locked_callbacks_are_silent (cb : Callbacks) (rt : Runtime)
    (tritonInst : InstPtr) (ctx : CONTEXT) (threadId : THREADID) (callback : PyObject)
    (std : Z) (g : Globals) :
  analysisTrigger g = false \/ threadId <> targetThreadId g ->
  callbackAfter cb rt tritonInst ctx threadId g = ([], Ret (tt, g))
  /\ callbackRoutineEntry cb ctx threadId callback g = ([], Ret (tt, g))
  /\ callbackRoutineExit cb ctx threadId callback g = ([], Ret (tt, g))
  /\ callbackSyscallEntry cb threadId ctx std g = ([], Ret (tt, g))
  /\ callbackSyscallExit cb threadId ctx std g = ([], Ret (tt, g)).
Proof.
  intros H.
  assert (Hl : analysisLocked threadId g = true).
  { unfold analysisLocked. destruct H as [-> | Hne]; [reflexivity |].
    apply orb_true_iff. right. apply negb_true_iff, Z.eqb_neq, Hne. }
  unfold callbackAfter, callbackRoutineEntry, callbackRoutineExit,
    callbackSyscallEntry, callbackSyscallExit.
  unfold bind, get. rewrite Hl. repeat split; reflexivity.
Qed.

Lemma X11_witness :
  callbackAfter idle_callbacks runtime_spec 7 9 5 running_globals
  = ([], Ret (tt, running_globals))
  /\ callbackRoutineEntry idle_callbacks 9 5 1 running_globals
     = ([], Ret (tt, running_globals))
  /\ callbackRoutineExit idle_callbacks 9 5 1 running_globals
     = ([], Ret (tt, running_globals))
  /\ callbackSyscallEntry idle_callbacks 5 9 0 running_globals
     = ([], Ret (tt, running_globals))
  /\ callbackSyscallExit idle_callbacks 5 9 0 running_globals
     = ([], Ret (tt, running_globals)).
Proof.
  apply (X11_locked_callbacks_are_silent idle_callbacks runtime_spec 7 9 5 1 0
           running_globals).
  right. simpl. lia.
Defined.

(** ** Image instrumentation, continued *)

Section ImageLoadMore.

Variable cb : Callbacks.

Lemma forM_rtn_insert_found (img : IMG) (ipoint : IPOINT) (f : PyObject -> AFUN)
    (l : list (string * PyObject)) (g : Globals) :
  exists tr,
    forM l (fun it =>
      when (RTN_FindByName img (fst it))
        (emit (EvRtnInsertCall img (fst it) ipoint (f (snd it))))) g
    = (tr, Ret (tt, g))
    /\ Forall (fun e => exists it, In it l
                        /\ e = EvRtnInsertCall img (fst it) ipoint (f (snd it))
                        /\ fst it ∈ IMG_Routines img) tr.
Proof.
  induction l as [|it l (tr & IH & Hf)].
  - exists []. split; [reflexivity | constructor].
  - assert (Hf' : Forall (fun e => exists it', In it' (it :: l)
                            /\ e = EvRtnInsertCall img (fst it') ipoint (f (snd it'))
                            /\ fst it' ∈ IMG_Routines img) tr).
    { eapply Forall_impl; [exact Hf |]. intros e (it' & Hin & He & Hr).
      exists it'. split; [right; exact Hin | split; assumption]. }
    cbn [forM]. unfold bind at 1, when at 1.
    destruct (RTN_FindByName img (fst it)) eqn:Efound.
    + unfold emit at 1. rewrite IH. eexists. split; [reflexivity |].
      constructor; [| exact Hf'].
      exists it. split; [left; reflexivity |]. split; [reflexivity |].
      unfold RTN_FindByName in Efound. apply bool_decide_eq_true in Efound. exact Efound.
    + unfold ret at 1. rewrite IH. eexists. split; [reflexivity | exact Hf'].
Qed.

Lemma IMG_Instrumentation_prefix (img : IMG) (g : Globals) :
  exists tr g0,
    Forall (img_prefix_event img g) tr
    /\ (startAnalysisFromEntry g = false -> g0 = g)
    /\ (startAnalysisFromEntry g = true ->
        g0 = set_startAnalysisFromAddr ({[IMG_Entry img]} ∪ startAnalysisFromAddr g)
               (set_startAnalysisFromEntry false g))
    /\ IMG_Instrumentation cb img g
       = if IMG_Valid img
         then (tr ++ fst (callbackImageLoad cb img g0), snd (callbackImageLoad cb img g0))
         else (tr, Ret (tt, g0)).
Proof.
  set (g0 := if startAnalysisFromEntry g
             then set_startAnalysisFromAddr ({[IMG_Entry img]} ∪ startAnalysisFromAddr g)
                    (set_startAnalysisFromEntry false g)
             else g).
  assert (Hreq : requested_routines g0 = requested_routines g)
    by (subst g0; destruct (startAnalysisFromEntry g); reflexivity).
  assert (Hhead : exists tr1,
    when (startAnalysisFromEntry g)
      (bind (modify (set_startAnalysisFromEntry false)) (fun _ =>
       bind (emit (EvInsertStartAddr (IMG_Entry img))) (fun _ =>
       modify (fun g => set_startAnalysisFromAddr
                          ({[IMG_Entry img]} ∪ startAnalysisFromAddr g) g)))) g
    = (tr1, Ret (tt, g0))
    /\ Forall (img_prefix_event img g) tr1).
  { subst g0. unfold bind, get, when, modify, emit, ret.
    destruct (startAnalysisFromEntry g); cbn; eexists; (split; [reflexivity |]).
    - constructor; [left; reflexivity | constructor].
    - constructor. }
  destruct Hhead as (tr1 & Hhead & Hf1).
  assert (Hsym : exists tr2,
    match startAnalysisFromSymbol g0 with
    | Some sym =>
        when (RTN_FindByName img sym)
          (bind (emit (EvRtnInsertCall img sym IPOINT_BEFORE (A_toggleWrapper true))) (fun _ =>
           emit (EvRtnInsertCall img sym IPOINT_AFTER (A_toggleWrapper false))))
    | None => ret tt
    end g0 = (tr2, Ret (tt, g0))
    /\ Forall (img_prefix_event img g) tr2).
  { unfold img_prefix_event. rewrite <- Hreq. unfold requested_routines.
    destruct (startAnalysisFromSymbol g0) as [sym|];
      [| eexists; split; [reflexivity | constructor]].
    unfold when. destruct (RTN_FindByName img sym) eqn:Efound;
      [| eexists; split; [reflexivity | constructor]].
    unfold RTN_FindByName in Efound. apply bool_decide_eq_true in Efound.
    eexists. split; [reflexivity |]. cbn [app].
    constructor; [| constructor; [| constructor]];
      right; eexists _, _, _;
      (split; [reflexivity |]); (split; [exact Efound | left; reflexivity]). }
  destruct Hsym as (tr2 & Hsym & Hf2).
  destruct (forM_rtn_insert_found img IPOINT_BEFORE A_callbackRoutineEntry
              (options_callbackRoutineEntry g0) g0) as (tr3 & He & Hf3).
  destruct (forM_rtn_insert_found img IPOINT_AFTER A_callbackRoutineExit
              (options_callbackRoutineExit g0) g0) as (tr4 & Hx & Hf4).
  exists (tr1 ++ tr2 ++ tr3 ++ tr4), g0. split; [| split; [| split]].
  - repeat (apply Forall_app; split); try assumption.
    + eapply Forall_impl; [exact Hf3 |]. intros e (it & Hin & -> & Hr).
      right. eexists _, _, _. split; [reflexivity |]. split; [exact Hr |].
      rewrite <- Hreq. unfold requested_routines.
      apply in_or_app. right. apply in_or_app. left. apply in_map. exact Hin.
    + eapply Forall_impl; [exact Hf4 |]. intros e (it & Hin & -> & Hr).
      right. eexists _, _, _. split; [reflexivity |]. split; [exact Hr |].
      rewrite <- Hreq. unfold requested_routines.
      apply in_or_app. right. apply in_or_app. right. apply in_map. exact Hin.
  - intros E. subst g0. rewrite E. reflexivity.
  - intros E. subst g0. rewrite E. reflexivity.
  - unfold IMG_Instrumentation.
    unfold bind at 1, get at 1. cbv beta iota. unfold bind at 1. rewrite Hhead.
    unfold bind at 1, get at 1. cbv beta iota. unfold bind at 1. rewrite Hsym.
    unfold bind at 1, get at 1. cbv beta iota. unfold bind at 1. rewrite He.
    unfold bind at 1, get at 1. cbv beta iota. unfold bind at 1. rewrite Hx.
    unfold when. destruct (IMG_Valid img).
    + destruct (callbackImageLoad cb img g0) as [t o]. cbn.
      rewrite <- !app_assoc. reflexivity.
    + unfold ret. cbn. rewrite !app_nil_r. reflexivity.
Qed.

End ImageLoadMore.

(** X12 (the image-load hook runs for valid images only, trigger or not):
    [IMG_Instrumentation] invokes the image-load hook exactly when the image
    is valid, whatever the trigger and the target thread are, and passes it
    the image's name, its low address and its size (high address plus one
    minus low address). *)
Theorem X12_image_load_hook_iff_valid (cb : Callbacks) (img : IMG) (g : Globals)
    (path : string) (base size : Z) :
  In (EvImageLoad path base size) (trace_of (IMG_Instrumentation cb img g))
  <-> IMG_Valid img = true
      /\ path = IMG_Name img
      /\ base = IMG_LowAddress img
      /\ size = imageSize img.
Proof.
  destruct (IMG_Instrumentation_prefix cb img g) as (tr & g0 & Hf & _ & _ & ->).
  assert (Hno : ~ In (EvImageLoad path base size) tr).
  { intros Hin. rewrite Forall_forall in Hf. apply list_elem_of_In in Hin.
    destruct (Hf _ Hin) as [H | (rtn & p & f & H & _)]; discriminate H. }
  destruct (IMG_Valid img).
  - rewrite callbackImageLoad_run. fold (imageSize img).
    destruct (imageLoad cb _ _ _ g0); unfold trace_of; cbn [fst]; rewrite in_app_iff; cbn;
      split.
    + intros [H | [H | [H | [H | []]]]]; try contradiction; try discriminate H.
      injection H as <- <- <-. tauto.
    + intros (_ & -> & -> & ->). tauto.
    + intros [H | [H | [H | []]]]; try contradiction; try discriminate H.
      injection H as <- <- <-. tauto.
    + intros (_ & -> & -> & ->). tauto.
  - unfold trace_of. cbn [fst]. split; [contradiction | intros [H _]; discriminate H].
Qed.

(** X13 (routine insertions are asked for and found): every analysis call
    that [IMG_Instrumentation] inserts on a routine is inserted in the image
    being loaded, on a routine that the image has and that the globals ask
    for (the start symbol or a key of the routine-entry or routine-exit
    tables); a name that the image does not have is passed over silently. *)
Theorem X13_routine_insertions_requested_and_found (cb : Callbacks) (img : IMG)
    (g : Globals) (img' : IMG) (rtn : string) (p : IPOINT) (f : AFUN) :
  In (EvRtnInsertCall img' rtn p f) (trace_of (IMG_Instrumentation cb img g)) ->
  img' = img /\ rtn ∈ IMG_Routines img /\ In rtn (requested_routines g).
Proof.
  destruct (IMG_Instrumentation_prefix cb img g) as (tr & g0 & Hf & _ & _ & ->).
  assert (Hpre : In (EvRtnInsertCall img' rtn p f) tr ->
                 img' = img /\ rtn ∈ IMG_Routines img /\ In rtn (requested_routines g)).
  { intros Hin. rewrite Forall_forall in Hf. apply list_elem_of_In in Hin.
    destruct (Hf _ Hin) as [H | (rtn0 & p0 & f0 & H & Hr & Hq)]; [discriminate H |].
    injection H as -> -> -> ->. auto. }
  destruct (IMG_Valid img).
  - rewrite callbackImageLoad_run.
    destruct (imageLoad cb _ _ _ g0); unfold trace_of; cbn [fst]; rewrite in_app_iff; cbn;
      intros [H | H]; auto; exfalso; intuition discriminate.
  - exact Hpre.
Qed.

Lemma X13_witness :
  libc_img = libc_img
  /\ "malloc"%string ∈ IMG_Routines libc_img
  /\ In "malloc"%string (requested_routines routine_globals).
Proof.
  apply (X13_routine_insertions_requested_and_found idle_callbacks libc_img
           routine_globals libc_img "malloc"%string IPOINT_BEFORE
           (A_callbackRoutineEntry 1)).
  vm_compute. tauto.
Defined.

(** X14 (a start from the entry point, end to end): after an image event
    that found the from-entry-point request set, with no start symbol, no
    target thread yet, and an image-load hook that leaves the start
    configuration alone, [checkUnlockAnalysis] at the entry address of that
    image unlocks the analysis for the calling thread. *)
Theorem X14_entry_point_unlocks (pin : Pin) (cb : Callbacks) (img : IMG)
    (g g1 : Globals) :
  startAnalysisFromEntry g = true ->
  startAnalysisFromSymbol g = None ->
  targetThreadId g = -1 ->
  (forall g0 g',
     imageLoad cb (IMG_Name img) (IMG_LowAddress img) (imageSize img) g0 = Some g' ->
     startAnalysisFromAddr g' = startAnalysisFromAddr g0
     /\ startAnalysisFromSymbol g' = startAnalysisFromSymbol g0
     /\ targetThreadId g' = targetThreadId g0) ->
  outcome_of (IMG_Instrumentation cb img g) = Ret (tt, g1) ->
  checkUnlockAnalysis pin (IMG_Entry img) g1
  = ([EvLockClient; EvUnlockClient],
     Ret (true, set_analysisTrigger true (set_targetThreadId (PIN_ThreadId pin) g1))).
Proof.
  intros He Hs Ht Hhook Hout.
  destruct (IMG_Instrumentation_prefix cb img g) as (tr & g0 & _ & _ & Hg0 & Hrun).
  specialize (Hg0 He). rewrite Hrun in Hout.
  assert (Hfields : startAnalysisFromAddr g1 = {[IMG_Entry img]} ∪ startAnalysisFromAddr g
                    /\ startAnalysisFromSymbol g1 = None
                    /\ targetThreadId g1 = -1).
  { destruct (IMG_Valid img).
    - rewrite callbackImageLoad_run in Hout. fold (imageSize img) in Hout.
      destruct (imageLoad cb _ _ _ g0) as [g'|] eqn:Hl;
        unfold outcome_of in Hout; cbn [snd] in Hout; [| discriminate Hout].
      injection Hout as ->. destruct (Hhook _ _ Hl) as (Ha & Hy & Hz).
      rewrite Ha, Hy, Hz, Hg0. cbn. auto.
    - unfold outcome_of in Hout. cbn [snd] in Hout. injection Hout as <-.
      rewrite Hg0. cbn. auto. }
  destruct Hfields as (Ha & Hy & Hz).
  rewrite checkUnlockAnalysis_startMatches, Hz. change (negb (-1 =? -1)) with false.
  cbv iota. unfold startMatches. rewrite Hy, Ha.
  rewrite bool_decide_eq_true_2
    by (apply elem_of_union_l, elem_of_singleton; reflexivity).
  reflexivity.
Qed.

Lemma X14_witness :
  checkUnlockAnalysis sample_pin 16384 (set_startAnalysisFromAddr {[16384]} initial_globals)
  = ([EvLockClient; EvUnlockClient],
     Ret (true, set_analysisTrigger true
                  (set_targetThreadId 0
                     (set_startAnalysisFromAddr {[16384]} initial_globals)))).
Proof.
  apply (X14_entry_point_unlocks sample_pin idle_callbacks (sample_img "/bin/ls" 16384)
           start_from_entry (set_startAnalysisFromAddr {[16384]} initial_globals)).
  - reflexivity.
  - reflexivity.
  - reflexivity.
  - intros g0 g' [= <-]. auto.
  - vm_compute. reflexivity.
Defined.

(** ** The entry point *)

(** X15 (how [main] ends): [main] returns 0 exactly when the DBI engine
    initialised and the script was executed; when the initialisation fails
    it returns -1 through [Usage] without registering anything and without
    touching the script; and when the script cannot be executed it throws,
    but only after all its callbacks and signal interceptions have been
    registered, the script being the last thing it tried. *)
Theorem X15_main_outcomes (PIN_Init_fails : bool) (script : string)
    (execScript : string -> bool) :
  (snd (main PIN_Init_fails script execScript) = MainReturn 0
   <-> PIN_Init_fails = false /\ execScript script = true)
  /\ (PIN_Init_fails = true ->
      snd (main PIN_Init_fails script execScript) = MainReturn (-1)
      /\ List.filter is_registration (fst (main PIN_Init_fails script execScript)) = []
      /\ ~ In (DoExecScript script) (fst (main PIN_Init_fails script execScript)))
  /\ (forall what,
        snd (main PIN_Init_fails script execScript) = MainThrow what ->
        PIN_Init_fails = false
        /\ execScript script = false
        /\ length (List.filter is_registration
                     (fst (main PIN_Init_fails script execScript))) = 16%nat
        /\ exists pre,
             fst (main PIN_Init_fails script execScript) = pre ++ [DoExecScript script]).
Proof.
  unfold main, Usage.
  destruct PIN_Init_fails; cbn.
  - split; [split; [discriminate | intros [H _]; discriminate H] |].
    split; [intros _; repeat split; intros H; intuition discriminate | discriminate].
  - destruct (execScript script); cbn.
    + split; [tauto |]. split; discriminate.
    + split; [split; [discriminate | intros [_ H]; discriminate H] |].
      split; [discriminate |]. intros what _. repeat split.
      lazymatch goal with
      | |- exists pre, ?l = _ => exists (removelast l); reflexivity
      end.
Qed.

(** ** The before hook sees built semantics *)

(** Splits an explicit trace at the before hook that follows the building
    of the semantics. *)
Ltac cb_split_at_before :=
  lazymatch goal with
  | |- exists pre post, ?l = _ /\ _ =>
      let rec go pre l :=
        lazymatch l with
        | EvBuildSemantics _ :: EvBefore _ :: ?r =>
            exists (rev pre), r;
            split; [reflexivity | split; cbn; intros H'; intuition discriminate]
        | ?x :: ?l' => go (x :: pre) l'
        end in
      go (@nil Event) l
  end.

(** X16 (the before hook comes right after the semantics): whenever
    [callbackBefore] invokes the before hook, it does so exactly once in the
    run, immediately after [buildSemantics]. *)
Theorem X16_before_hook_follows_semantics (cb : Callbacks) (rt : Runtime)
    (tritonInst : InstPtr) (addr size : Z) (ctx : CONTEXT) (threadId : THREADID)
    (g : Globals) :
  In (EvBefore tritonInst)
     (trace_of (callbackBefore cb rt tritonInst addr size ctx threadId g)) ->
  exists pre post,
    trace_of (callbackBefore cb rt tritonInst addr size ctx threadId g)
    = pre ++ [EvBuildSemantics tritonInst; EvBefore tritonInst] ++ post
    /\ ~ In (EvBefore tritonInst) pre
    /\ ~ In (EvBefore tritonInst) post.
Proof.
  cb_unfold. cbn.
  repeat (cb_step; cbn); intros H;
    first [cb_split_at_before | exfalso; intuition discriminate].
Qed.

Lemma X16_witness :
  exists pre post,
    trace_of (callbackBefore idle_callbacks runtime_spec 7 16384 4 9 0 running_globals)
    = pre ++ [EvBuildSemantics 7; EvBefore 7] ++ post
    /\ ~ In (EvBefore 7) pre
    /\ ~ In (EvBefore 7) post.
Proof.
  apply (X16_before_hook_follows_semantics idle_callbacks runtime_spec
           7 16384 4 9 0 running_globals).
  cbn. tauto.
Defined.
